(** * Rhythm analysis of note events: a shallow embedding

    The notebook's analysis functions ([analyze_note_density],
    [find_rhythm_patterns], [analyze_syncopation], [analyze_groove]), the
    extraction step and the ranking of the patterns are embedded as Rocq
    functions, Python integers as [Z] and a raised exception as the [Err]
    branch of [result].

    The times of a note and the scalar parameters are floats.  They are
    embedded twice.  The top-level definitions compute with exact
    rationals ([Q], compared with [==]): they say what the code does when
    no operation rounds, and the theorems about them are either scoped to
    exact arithmetic or about structure and order, where rounding plays no
    part.  The module [Binary64] embeds the same code over IEEE 754 double
    precision numbers, with the rounding, the overflow and the NaN
    behaviour of the interpreter; the theorems of [Binary64Facts] are about
    that code. *)

From Stdlib Require Import ZArith QArith Qround Qabs Lqa Lia List Bool.
From Stdlib Require Import Sorted Permutation Floats.
Import ListNotations.
Local Open Scope Q_scope.

(** ** Exceptions and the error monad *)

(** The exceptions the embedded code can raise. *)
Inductive exn : Type :=
| ZeroDivisionError   (* float division or modulo by zero, arange step 0 *)
| OverflowError       (* an infinity where an integer is needed *)
| ValueError          (* max() of an empty sequence, a NaN rounded *)
| IndexError.         (* list index out of range *)

Inductive result (A : Type) : Type :=
| Ok (a : A)
| Err (e : exn).
Arguments Ok {A} a.
Arguments Err {A} e.

Definition bind {A B : Type} (r : result A) (k : A -> result B) : result B :=
  match r with
  | Ok a => k a
  | Err e => Err e
  end.

Notation "x <- r ;; k" := (bind r (fun x => k))
  (at level 61, r at next level, right associativity).

Definition failed {A : Type} (r : result A) : Prop := exists e, r = Err e.

(** ** Python arithmetic over exact rationals *)

Definition Qhalf : Q := 1 # 2.

(** [round(x)] with one argument: the nearest integer, a tie going to the
    even neighbour. *)
Definition py_round (x : Q) : Z :=
  let f := Qfloor x in
  match Qcompare (x - inject_Z f) Qhalf with
  | Lt => f
  | Gt => (f + 1)%Z
  | Eq => if Z.even f then f else (f + 1)%Z
  end.

(** [a / b] on floats. *)
Definition py_div (a b : Q) : result Q :=
  if Qeq_bool b 0 then Err ZeroDivisionError else Ok (a / b).

(** [a % b] on floats: the remainder takes the sign of the divisor. *)
Definition fmod (a b : Q) : Q := a - b * inject_Z (Qfloor (a / b)).

Definition py_mod (a b : Q) : result Q :=
  if Qeq_bool b 0 then Err ZeroDivisionError else Ok (fmod a b).

(** [a < b] on floats. *)
Definition Qlt_bool (a b : Q) : bool := negb (Qle_bool b a).

(** [max(iterable)]: the first largest item. *)
Definition py_max (l : list Q) : result Q :=
  match l with
  | [] => Err ValueError
  | x :: l' => Ok (fold_left (fun m y => if Qlt_bool m y then y else m) l' x)
  end.

(** [sum(iterable)] of integers. *)
Definition py_sum (l : list Z) : Z := fold_left Z.add l 0%Z.

(** [range(lo, hi)]. *)
Definition py_range (lo hi : nat) : list nat := seq lo (hi - lo).

(** [l[i]] for a non-negative index. *)
Definition get {A : Type} (l : list A) (i : nat) : result A :=
  match nth_error l i with
  | Some a => Ok a
  | None => Err IndexError
  end.

(** A [for] loop over [l] that updates the loop state [st] and stops at
    the first exception. *)
Fixpoint for_loop {A S : Type} (body : S -> A -> result S) (l : list A)
  (st : S) : result S :=
  match l with
  | [] => Ok st
  | a :: l' =>
      st' <- body st a ;;
      for_loop body l' st'
  end.

(** Modelled from the numpy documentation: [np.arange(start, stop, step)]
    has [ceil((stop - start) / step)] items [start + i * step] (none when
    that number is not positive); the length computation divides by
    [step]. *)
Definition np_arange (start stop step : Q) : result (list Q) :=
  len <- py_div (stop - start) step ;;
  Ok (map (fun i => start + inject_Z (Z.of_nat i) * step)
          (seq 0 (Z.to_nat (Qceiling len)))).

(** ** Note events *)

(** One dictionary built by [extract_note_events]. *)
Record note_event : Type := mk_note {
  start : Q;
  end_ : Q;
  duration : Q;
  pitch : Z;
  velocity : Z;
  instrument : Z
}.

(** A note with the given onset, offset and velocity; its duration is
    [e - s] as the extraction step computes it, its pitch 60 and its
    program 0. *)
Definition note (s e : Q) (v : Z) : note_event :=
  mk_note s e (e - s) 60 v 0.

(** ** Density Profiler *)

(** The generator expression counted at sample point [t]. *)
Definition active_at (t : Q) (n : note_event) : bool :=
  Qle_bool (start n) t && Qle_bool t (end_ n).

Definition notes_in_window (note_events : list note_event) (t : Q) : Z :=
  py_sum (map (fun _ => 1%Z) (filter (active_at t) note_events)).

Definition analyze_note_density (note_events : list note_event)
  (window_size : Q) : result (list Q * list Z) :=
  match note_events with
  | [] => Ok ([], [])
  | _ :: _ =>
      max_time <- py_max (map end_ note_events) ;;
      time_points <- np_arange 0 max_time window_size ;;
      densities <-
        for_loop (fun densities t =>
                    Ok (densities ++ [notes_in_window note_events t]))
                 time_points [] ;;
      Ok (time_points, densities)
  end.

(** ** Pattern Finder *)

(** A tuple of quantized IOIs, the key of the histogram. *)
Definition pattern : Type := list Q.

(** Equality of two tuples of floats. *)
Fixpoint pattern_eqb (p r : pattern) : bool :=
  match p, r with
  | [], [] => true
  | a :: p', b :: r' => Qeq_bool a b && pattern_eqb p' r'
  | _, _ => false
  end.

(** The [defaultdict(int)], in insertion order. *)
Definition histogram : Type := list (pattern * Z).

(** [patterns[k] += 1]: a missing key starts from [int() = 0]. *)
Fixpoint incr (k : pattern) (patterns : histogram) : histogram :=
  match patterns with
  | [] => [(k, 1%Z)]
  | (k', c) :: rest =>
      if pattern_eqb k' k then (k', (c + 1)%Z) :: rest
      else (k', c) :: incr k rest
  end.

(** [patterns[k]] read without inserting. *)
Fixpoint lookup (k : pattern) (patterns : histogram) : Z :=
  match patterns with
  | [] => 0%Z
  | (k', c) :: rest => if pattern_eqb k' k then c else lookup k rest
  end.

Definition sum_counts (patterns : histogram) : Z :=
  py_sum (map snd patterns).

(** [round((b.start - a.start) / quantization) * quantization]. *)
Definition quantized_ioi (a b : note_event) (quantization : Q) : result Q :=
  x <- py_div (start b - start a) quantization ;;
  Ok (inject_Z (py_round x) * quantization).

(** The loop body at index [i], on the pair
    [(current_pattern, patterns)]; [i] comes from [range(1, ...)], so
    [i - 1] is never negative. *)
Definition pattern_step (note_events : list note_event) (quantization : Q)
  (st : list Q * histogram) (i : nat) : result (list Q * histogram) :=
  let '(current_pattern, patterns) := st in
  cur <- get note_events i ;;
  prev <- get note_events (i - 1) ;;
  ioi <- quantized_ioi prev cur quantization ;;
  let current_pattern := current_pattern ++ [ioi] in
  if Nat.eqb (length current_pattern) 4 then
    Ok (tl current_pattern, incr current_pattern patterns)
  else
    Ok (current_pattern, patterns).

Definition find_rhythm_patterns (note_events : list note_event)
  (quantization : Q) : result histogram :=
  st <- for_loop (pattern_step note_events quantization)
                 (py_range 1 (length note_events)) ([], []) ;;
  Ok (snd st).

(** ** Syncopation Scorer *)

Record syncopation_record : Type := mk_sync {
  s_time : Q;
  score : Q
}.

(** The loop body for one note. *)
Definition syncopation_step (beats_per_bar : Q)
  (syncopation_scores : list syncopation_record) (n : note_event)
  : result (list syncopation_record) :=
  position_in_bar <- py_mod (start n) beats_per_bar ;;
  frac <- py_mod position_in_bar 1 ;;
  let is_strong_beat := Qlt_bool frac (1 # 10) in
  let velocity_factor := inject_Z (velocity n) / 127 in
  if negb is_strong_beat && Qlt_bool (1 # 2) velocity_factor then
    frac' <- py_mod position_in_bar 1 ;;
    Ok (syncopation_scores
          ++ [mk_sync (start n) (velocity_factor * (1 - frac'))])
  else
    Ok syncopation_scores.

Definition analyze_syncopation (note_events : list note_event)
  (beats_per_bar : Q) : result (list syncopation_record) :=
  for_loop (syncopation_step beats_per_bar) note_events [].

(** ** Groove Analyzer *)

Record groove_record : Type := mk_groove {
  g_time : Q;
  deviation : Q
}.

(** The loop body for one note. *)
Definition groove_step (quantization : Q)
  (groove_deviations : list groove_record) (n : note_event)
  : result (list groove_record) :=
  x <- py_div (start n) quantization ;;
  let quantized_start := inject_Z (py_round x) * quantization in
  let deviation := start n - quantized_start in
  Ok (groove_deviations ++ [mk_groove (start n) deviation]).

Definition analyze_groove (note_events : list note_event) (quantization : Q)
  : result (list groove_record) :=
  for_loop (groove_step quantization) note_events [].

(** ** Reference definitions the claims are stated against *)

(** The loop of [find_rhythm_patterns] read along the list: [prev] is
    [note_events[i-1]] and [rest] starts at [note_events[i]]. *)
Fixpoint pattern_loop (quantization : Q) (prev : note_event)
  (rest : list note_event) (st : list Q * histogram)
  : result (list Q * histogram) :=
  match rest with
  | [] => Ok st
  | cur :: rest' =>
      ioi <- quantized_ioi prev cur quantization ;;
      let current_pattern := fst st ++ [ioi] in
      if Nat.eqb (length current_pattern) 4 then
        pattern_loop quantization cur rest'
          (tl current_pattern, incr current_pattern (snd st))
      else
        pattern_loop quantization cur rest' (current_pattern, snd st)
  end.

(** The spec's quantized IOIs: one per pair of consecutive notes. *)
Fixpoint iois_from (prev : note_event) (rest : list note_event) (q : Q)
  : list Q :=
  match rest with
  | [] => []
  | cur :: rest' =>
      inject_Z (py_round ((start cur - start prev) / q)) * q
        :: iois_from cur rest' q
  end.

Definition quantized_iois (note_events : list note_event) (q : Q) : list Q :=
  match note_events with
  | [] => []
  | first :: rest => iois_from first rest q
  end.

(** The spec's overlapping [k]-grams of a sequence, in order. *)
Fixpoint windows (k : nat) (l : list Q) : list pattern :=
  match l with
  | [] => []
  | _ :: l' => if (k <=? length l)%nat then firstn k l :: windows k l' else []
  end.

(** Recording a sequence of patterns one after the other. *)
Definition record_all (ws : list pattern) (patterns : histogram)
  : histogram :=
  fold_left (fun h w => incr w h) ws patterns.

Definition histogram_of (ws : list pattern) : histogram := record_all ws [].

(** The spec's [max(0, N - 4)]. *)
Definition four_grams (N : nat) : Z := Z.max 0 (Z.of_nat N - 4).

(** Notes sorted ascending by [start], as [extract_note_events] leaves
    them. *)
Fixpoint sorted_by_start (note_events : list note_event) : bool :=
  match note_events with
  | a :: (b :: _) as rest => Qle_bool (start a) (start b) && sorted_by_start rest
  | _ => true
  end.

(** Notes with onset [s], lasting one second, at velocity 100. *)
Definition notes_at (starts : list Q) : list note_event :=
  map (fun s => note s (s + 1) 100) starts.

(** The spec's [fractional], [velocity_factor], emission test and emitted
    record of the Syncopation Scorer. *)
Definition fractional (beats_per_bar : Q) (n : note_event) : Q :=
  fmod (fmod (start n) beats_per_bar) 1.

Definition velocity_factor (n : note_event) : Q :=
  inject_Z (velocity n) / 127.


Definition syncopation_of (beats_per_bar : Q) (n : note_event)
  : syncopation_record :=
  mk_sync (start n) (velocity_factor n * (1 - fractional beats_per_bar n)).

(** The spec's groove record of one note. *)
Definition groove_of (q : Q) (n : note_event) : groove_record :=
  mk_groove (start n) (start n - inject_Z (py_round (start n / q)) * q).

(** Two tuples of floats that Python compares equal. *)
Definition same_pattern (p r : pattern) : Prop := Forall2 Qeq p r.

(** Two histograms with the same keys, in the same order, with the same
    counts. *)
Definition same_histogram (h1 h2 : histogram) : Prop :=
  Forall2 (fun kv1 kv2 => same_pattern (fst kv1) (fst kv2)
                          /\ snd kv1 = snd kv2) h1 h2.

(** Two outcomes of the Pattern Finder that cannot be told apart. *)
Definition same_outcome (r1 r2 : result histogram) : Prop :=
  match r1, r2 with
  | Ok h1, Ok h2 => same_histogram h1 h2
  | Err e1, Err e2 => e1 = e2
  | _, _ => False
  end.

(** ** Extraction of note events *)

(** The part of a [pretty_midi.PrettyMIDI] object that
    [extract_note_events] reads. *)
Module pretty_midi.

Record Note : Type := mk_Note {
  start : Q;
  end_ : Q;
  pitch : Z;
  velocity : Z
}.

Record Instrument : Type := mk_Instrument {
  program : Z;
  notes : list Note
}.

Record PrettyMIDI : Type := mk_PrettyMIDI {
  instruments : list Instrument
}.

End pretty_midi.

(** [sorted(l, key=...)] is a stable sort, so its result is the one of any
    stable sort: here insertion from the right, each item going in front of
    the first item that does not come strictly before it.  [lt a b] says
    that the key of [a] comes strictly before the key of [b]. *)
Fixpoint insert_stable {A : Type} (lt : A -> A -> bool) (x : A) (l : list A)
  : list A :=
  match l with
  | [] => [x]
  | y :: l' => if lt y x then y :: insert_stable lt x l' else x :: y :: l'
  end.

Definition py_sorted {A : Type} (lt : A -> A -> bool) (l : list A) : list A :=
  fold_right (insert_stable lt) [] l.

(** The dictionary appended for one note of one instrument. *)
Definition event_of (ins : pretty_midi.Instrument) (n : pretty_midi.Note)
  : note_event :=
  mk_note (pretty_midi.start n) (pretty_midi.end_ n)
          (pretty_midi.end_ n - pretty_midi.start n)
          (pretty_midi.pitch n) (pretty_midi.velocity n)
          (pretty_midi.program ins).

(** The two nested loops that fill [note_events]. *)
Definition collect_events (midi_data : pretty_midi.PrettyMIDI)
  : list note_event :=
  fold_left
    (fun note_events ins =>
       fold_left (fun note_events n => note_events ++ [event_of ins n])
                 (pretty_midi.notes ins) note_events)
    (pretty_midi.instruments midi_data) [].

(** [key=lambda x: x['start']]. *)
Definition by_start (a b : note_event) : bool := Qlt_bool (start a) (start b).

Definition extract_note_events (midi_data : pretty_midi.PrettyMIDI)
  : list note_event :=
  py_sorted by_start (collect_events midi_data).

(** ** The most common patterns *)

(** [key=lambda x: x[1], reverse=True]: a larger count comes first. *)
Definition by_count_desc (a b : pattern * Z) : bool := Z.ltb (snd b) (snd a).

(** [sorted(patterns.items(), key=lambda x: x[1], reverse=True)]. *)
Definition ranked (patterns : histogram) : list (pattern * Z) :=
  py_sorted by_count_desc patterns.

(** The slice [[:5]] of the ranking that the notebook prints. *)
Definition most_common (patterns : histogram) : list (pattern * Z) :=
  firstn 5 (ranked patterns).

(** ** Further reference definitions *)

(** Some key of the histogram compares equal to [k]. *)
Definition key_in (k : pattern) (patterns : histogram) : bool :=
  existsb (fun kv => pattern_eqb (fst kv) k) patterns.

(** No two keys of the histogram compare equal. *)
Fixpoint distinct_keys (patterns : histogram) : bool :=
  match patterns with
  | [] => true
  | (k, _) :: rest => negb (key_in k rest) && distinct_keys rest
  end.

(** The note sequence played [d] seconds later. *)
Definition shifted (d : Q) (note_events : list note_event)
  : list note_event :=
  map (fun n => mk_note (start n + d) (end_ n + d) (duration n)
                        (pitch n) (velocity n) (instrument n))
      note_events.

(** A two-instrument piece: a piano line and a bass line whose notes
    interleave in time. *)
Definition two_instruments : pretty_midi.PrettyMIDI :=
  pretty_midi.mk_PrettyMIDI
    [pretty_midi.mk_Instrument 0
       [pretty_midi.mk_Note 0 (1 # 2) 60 100;
        pretty_midi.mk_Note (1 # 2) 1 62 90;
        pretty_midi.mk_Note 1 (3 # 2) 64 80;
        pretty_midi.mk_Note 2 3 65 70];
     pretty_midi.mk_Instrument 33
       [pretty_midi.mk_Note 0 1 36 110;
        pretty_midi.mk_Note (3 # 4) 1 38 100;
        pretty_midi.mk_Note (3 # 2) 2 40 90]].

(** ** The same code over binary64 floats *)

(** The embedding above computes with exact rationals: it is what the code
    does when no operation rounds.  [Binary64] embeds the same functions
    over IEEE 754 double precision numbers, the arithmetic the interpreter
    really uses: [+ - * /] and the comparisons are the primitive operations
    of [float]; [round], [%] and [np.arange] are built from them and from
    the exact value of a float.  The times of the notes are either built-in
    Python floats or [numpy.float64] scalars (what [pretty_midi] stores);
    the two differ where a divisor is zero.  Memory exhaustion is not
    modelled. *)
Module Binary64.

#[local] Set Warnings "-inexact-float".
Local Open Scope float_scope.

(** How the times of the notes are represented. *)
Inductive scalar_kind : Type :=
| PyFloat       (* built-in float: [/] and [%] by zero raise *)
| NpFloat64.    (* numpy.float64: [/] and [%] by zero give inf or nan *)

(** The nearest integer of an exact value, a tie going to the even
    neighbour. *)
Definition round_half_even (v : Q) : Z := py_round v.

(** The exact value of a finite float, [None] for an infinity or a NaN. *)
Definition exact (x : float) : option Q :=
  match Prim2SF x with
  | S754_zero _ => Some 0%Q
  | S754_finite s m e =>
      Some (inject_Z (SpecFloat.cond_Zopp s (Zpos m)) * Qpower 2 e)%Q
  | S754_infinity _ | S754_nan => None
  end.

(** The float nearest to an integer (ties to even). *)
Definition of_Z (z : Z) : float :=
  SF2Prim (SpecFloat.binary_normalize prec emax z 0 false).

(** A Python int used where a float is expected ([PyLong_AsDouble]): an
    int beyond the range of floats raises OverflowError. *)
Definition float_of_int (z : Z) : result float :=
  let f := of_Z z in
  if is_infinity f then Err OverflowError else Ok f.

(** [round(x)] with one argument: the integer nearest to the exact value of
    [x], a tie going to the even neighbour; an infinity raises
    OverflowError and a NaN raises ValueError. *)
Definition py_round (x : float) : result Z :=
  match Prim2SF x with
  | S754_nan => Err ValueError
  | S754_infinity _ => Err OverflowError
  | _ =>
      match exact x with
      | Some v => Ok (round_half_even v)
      | None => Err ValueError
      end
  end.

(** [a / b] where [a] is a time of kind [k]. *)
Definition py_div (k : scalar_kind) (a b : float) : result float :=
  match k with
  | PyFloat => if b =? 0 then Err ZeroDivisionError else Ok (a / b)
  | NpFloat64 => Ok (a / b)
  end.

(** C's [fmod]: the exact remainder of the truncated division, with the
    sign of [x]. *)
Definition c_fmod (x y : float) : float :=
  match Prim2SF x, Prim2SF y with
  | S754_nan, _ | _, S754_nan => nan
  | S754_infinity _, _ => nan
  | _, S754_zero _ => nan
  | _, S754_infinity _ => x
  | S754_zero _, _ => x
  | S754_finite sx mx ex, S754_finite sy my ey =>
      let e := Z.min ex ey in
      let X := (Zpos mx * 2 ^ (ex - e))%Z in
      let Y := (Zpos my * 2 ^ (ey - e))%Z in
      SF2Prim (SpecFloat.binary_normalize prec emax
                 (SpecFloat.cond_Zopp sx (X mod Y)) e sx)
  end.

(** [copysign(0.0, y)]. *)
Definition zero_like (y : float) : float :=
  if get_sign y then neg_zero else zero.

(** The remainder once the divisor is known not to be zero ([float_rem] of
    CPython, [npy_divmod] of numpy): it takes the sign of the divisor. *)
Definition rem_adjust (a b : float) : float :=
  let m := c_fmod a b in
  if m =? 0 then zero_like b
  else if Bool.eqb (b <? 0) (m <? 0) then m else m + b.

(** [a % b] where [a] is a time of kind [k]. *)
Definition py_mod (k : scalar_kind) (a b : float) : result float :=
  if b =? 0 then
    match k with
    | PyFloat => Err ZeroDivisionError
    | NpFloat64 => Ok nan
    end
  else Ok (rem_adjust a b).

(** [max(iterable)]: an item replaces the current one when it is
    greater. *)
Definition py_max (l : list float) : result float :=
  match l with
  | [] => Err ValueError
  | x :: l' => Ok (fold_left (fun m y => if m <? y then y else m) l' x)
  end.

(** Modelled from the numpy sources: the number of items of
    [np.arange(start, stop, step)] is the ceiling of the float quotient
    [(stop - start) / step]; a quotient that underflows to zero gives one
    item (none when it is negative), a NaN raises ValueError and a length
    beyond the machine integers raises OverflowError. *)
Definition arange_length (k : scalar_kind) (start stop step : float)
  : result Z :=
  let delta := stop - start in
  value <- py_div k delta step ;;
  if (value =? 0) && negb (delta =? 0) then
    Ok (if get_sign value then 0 else 1)%Z
  else
    match Prim2SF value with
    | S754_nan => Err ValueError
    | S754_infinity _ => Err OverflowError
    | _ =>
        match exact value with
        | Some v =>
            let len := Qceiling v in
            if ((- 2 ^ 63 <=? len) && (len <=? 2 ^ 63 - 1))%Z then Ok len
            else Err OverflowError
        | None => Err ValueError
        end
    end.

(** The items: [start], [start + step], then [start + i * delta] with
    [delta] the difference of the first two. *)
Definition arange_item (start step : float) (i : nat) : float :=
  match i with
  | O => start
  | S O => start + step
  | _ => start + of_Z (Z.of_nat i) * ((start + step) - start)
  end.

Definition np_arange (k : scalar_kind) (start stop step : float)
  : result (list float) :=
  len <- arange_length k start stop step ;;
  Ok (map (arange_item start step) (seq 0 (Z.to_nat len))).

(** *** Note events *)

Record note_event : Type := mk_note {
  start : float;
  end_ : float;
  duration : float;
  pitch : Z;
  velocity : Z;
  instrument : Z
}.

(** A note with the given onset, offset and velocity. *)
Definition note (s e : float) (v : Z) : note_event :=
  mk_note s e (e - s) 60 v 0.

(** Notes with onset [s], lasting one second, at velocity 100. *)
Definition notes_at (starts : list float) : list note_event :=
  map (fun s => note s (s + 1) 100) starts.

(** *** Density Profiler *)

Definition active_at (t : float) (n : note_event) : bool :=
  (start n <=? t) && (t <=? end_ n).

Definition notes_in_window (note_events : list note_event) (t : float) : Z :=
  py_sum (map (fun _ => 1%Z) (filter (active_at t) note_events)).

Definition analyze_note_density (k : scalar_kind)
  (note_events : list note_event) (window_size : float)
  : result (list float * list Z) :=
  match note_events with
  | [] => Ok ([], [])
  | _ :: _ =>
      max_time <- py_max (map end_ note_events) ;;
      time_points <- np_arange k 0 max_time window_size ;;
      densities <-
        for_loop (fun densities t =>
                    Ok (densities ++ [notes_in_window note_events t]))
                 time_points [] ;;
      Ok (time_points, densities)
  end.

(** *** Pattern Finder *)

Definition pattern : Type := list float.

(** Equality of two tuples of floats: [-0.0 == 0.0], and a NaN equals
    nothing. *)
Fixpoint pattern_eqb (p r : pattern) : bool :=
  match p, r with
  | [], [] => true
  | a :: p', b :: r' => (a =? b) && pattern_eqb p' r'
  | _, _ => false
  end.

Definition histogram : Type := list (pattern * Z).

Fixpoint incr (key : pattern) (patterns : histogram) : histogram :=
  match patterns with
  | [] => [(key, 1%Z)]
  | (key', c) :: rest =>
      if pattern_eqb key' key then (key', (c + 1)%Z) :: rest
      else (key', c) :: incr key rest
  end.

Definition sum_counts (patterns : histogram) : Z :=
  py_sum (map snd patterns).

(** [round((b.start - a.start) / quantization) * quantization]. *)
Definition quantized_ioi (k : scalar_kind) (a b : note_event)
  (quantization : float) : result float :=
  x <- py_div k (start b - start a) quantization ;;
  z <- py_round x ;;
  f <- float_of_int z ;;
  Ok (f * quantization).

Definition pattern_step (k : scalar_kind) (note_events : list note_event)
  (quantization : float) (st : list float * histogram) (i : nat)
  : result (list float * histogram) :=
  let '(current_pattern, patterns) := st in
  cur <- get note_events i ;;
  prev <- get note_events (i - 1) ;;
  ioi <- quantized_ioi k prev cur quantization ;;
  let current_pattern := current_pattern ++ [ioi] in
  if Nat.eqb (length current_pattern) 4 then
    Ok (tl current_pattern, incr current_pattern patterns)
  else
    Ok (current_pattern, patterns).

Definition find_rhythm_patterns (k : scalar_kind)
  (note_events : list note_event) (quantization : float)
  : result histogram :=
  st <- for_loop (pattern_step k note_events quantization)
                 (py_range 1 (length note_events)) ([], []) ;;
  Ok (snd st).

(** *** Syncopation Scorer *)

Record syncopation_record : Type := mk_sync {
  s_time : float;
  score : float
}.

Definition syncopation_step (k : scalar_kind) (beats_per_bar : float)
  (syncopation_scores : list syncopation_record) (n : note_event)
  : result (list syncopation_record) :=
  position_in_bar <- py_mod k (start n) beats_per_bar ;;
  frac <- py_mod k position_in_bar 1 ;;
  let is_strong_beat := frac <? 0.1 in
  v <- float_of_int (velocity n) ;;
  let velocity_factor := v / 127 in
  if negb is_strong_beat && (0.5 <? velocity_factor) then
    frac' <- py_mod k position_in_bar 1 ;;
    Ok (syncopation_scores
          ++ [mk_sync (start n) (velocity_factor * (1 - frac'))])
  else
    Ok syncopation_scores.

Definition analyze_syncopation (k : scalar_kind)
  (note_events : list note_event) (beats_per_bar : float)
  : result (list syncopation_record) :=
  for_loop (syncopation_step k beats_per_bar) note_events [].

(** *** Groove Analyzer *)

Record groove_record : Type := mk_groove {
  g_time : float;
  deviation : float
}.

Definition groove_step (k : scalar_kind) (quantization : float)
  (groove_deviations : list groove_record) (n : note_event)
  : result (list groove_record) :=
  x <- py_div k (start n) quantization ;;
  z <- py_round x ;;
  f <- float_of_int z ;;
  let quantized_start := f * quantization in
  let deviation := start n - quantized_start in
  Ok (groove_deviations ++ [mk_groove (start n) deviation]).

Definition analyze_groove (k : scalar_kind) (note_events : list note_event)
  (quantization : float) : result (list groove_record) :=
  for_loop (groove_step k quantization) note_events [].

(** *** Reference definitions *)

(** The quantized IOIs of consecutive notes, in order; the first one that
    cannot be computed decides the error. *)
Fixpoint iois_from (k : scalar_kind) (prev : note_event)
  (rest : list note_event) (q : float) : result (list float) :=
  match rest with
  | [] => Ok []
  | cur :: rest' =>
      x <- quantized_ioi k prev cur q ;;
      xs <- iois_from k cur rest' q ;;
      Ok (x :: xs)
  end.

Definition quantized_iois (k : scalar_kind) (note_events : list note_event)
  (q : float) : result (list float) :=
  match note_events with
  | [] => Ok []
  | first :: rest => iois_from k first rest q
  end.

(** The overlapping [n]-grams of a sequence, in order. *)
Fixpoint windows (n : nat) (l : list float) : list pattern :=
  match l with
  | [] => []
  | _ :: l' => if (n <=? length l)%nat then firstn n l :: windows n l' else []
  end.

Definition record_all (ws : list pattern) (patterns : histogram)
  : histogram :=
  fold_left (fun h w => incr w h) ws patterns.

Definition histogram_of (ws : list pattern) : histogram := record_all ws [].

Fixpoint sorted_by_start (note_events : list note_event) : bool :=
  match note_events with
  | a :: (b :: _) as rest => (start a <=? start b) && sorted_by_start rest
  | _ => true
  end.

(** What the loop body of [analyze_syncopation] does with one note:
    nothing, or one record. *)
Definition syncopation_of (k : scalar_kind) (beats_per_bar : float)
  (n : note_event) : result (option syncopation_record) :=
  position_in_bar <- py_mod k (start n) beats_per_bar ;;
  fractional <- py_mod k position_in_bar 1 ;;
  v <- float_of_int (velocity n) ;;
  let velocity_factor := v / 127 in
  if negb (fractional <? 0.1) && (0.5 <? velocity_factor) then
    Ok (Some (mk_sync (start n) (velocity_factor * (1 - fractional))))
  else Ok None.

(** [(start % beats_per_bar) % 1.0]. *)
Definition fractional (k : scalar_kind) (beats_per_bar : float)
  (n : note_event) : result float :=
  position_in_bar <- py_mod k (start n) beats_per_bar ;;
  py_mod k position_in_bar 1.

(** The records emitted for a sequence of per-note outcomes. *)
Definition emitted (outs : list (option syncopation_record))
  : list syncopation_record :=
  flat_map (fun o => match o with Some r => [r] | None => [] end) outs.

(** What the loop body of [analyze_groove] appends for one note. *)
Definition groove_of (k : scalar_kind) (q : float) (n : note_event)
  : result groove_record :=
  x <- py_div k (start n) q ;;
  z <- py_round x ;;
  f <- float_of_int z ;;
  Ok (mk_groove (start n) (start n - f * q)).

End Binary64.

(** * Proofs *)

(** ** The error monad and loops *)

Lemma for_loop_app {A S : Type} (body : S -> A -> result S)
  (l1 l2 : list A) (st : S) :
  for_loop body (l1 ++ l2) st
  = (st' <- for_loop body l1 st ;; for_loop body l2 st').
Proof.
  revert st. induction l1 as [|a l1 IH]; intros st; simpl.
  - reflexivity.
  - destruct (body st a) as [st'|e]; simpl; [apply IH | reflexivity].
Qed.

Lemma for_loop_collect {A B : Type} (f : A -> B) (l : list A) (acc : list B) :
  for_loop (fun acc a => Ok (acc ++ [f a])) l acc = Ok (acc ++ map f l).
Proof.
  revert acc. induction l as [|a l IH]; intros acc; simpl.
  - now rewrite app_nil_r.
  - rewrite IH, <- app_assoc. reflexivity.
Qed.

Lemma py_div_ok (a b : Q) : ~ b == 0 -> py_div a b = Ok (a / b).
Proof.
  intros Hb. unfold py_div.
  destruct (Qeq_bool b 0) eqn:E; [|reflexivity].
  apply Qeq_bool_eq in E. contradiction.
Qed.

Lemma py_div_zero (a b : Q) : b == 0 -> py_div a b = Err ZeroDivisionError.
Proof.
  intros Hb. unfold py_div. apply Qeq_eq_bool in Hb. now rewrite Hb.
Qed.



Lemma Qlt_bool_iff (a b : Q) : Qlt_bool a b = true <-> a < b.
Proof.
  unfold Qlt_bool. rewrite negb_true_iff.
  split.
  - intros H. apply Qnot_le_lt. intros Hle.
    apply Qle_bool_iff in Hle. congruence.
  - intros H. destruct (Qle_bool b a) eqn:E; [|reflexivity].
    apply Qle_bool_iff in E. lra.
Qed.

Lemma Qlt_bool_false_iff (a b : Q) : Qlt_bool a b = false <-> b <= a.
Proof.
  unfold Qlt_bool. rewrite negb_false_iff. apply Qle_bool_iff.
Qed.

(** ** Rounding *)

Lemma Qfloor_bounds (x : Q) :
  inject_Z (Qfloor x) <= x /\ x < inject_Z (Qfloor x) + 1.
Proof.
  split.
  - apply Qfloor_le.
  - pose proof (Qlt_floor x) as H.
    rewrite inject_Z_plus in H. exact H.
Qed.

Lemma py_round_near (x : Q) :
  - Qhalf <= x - inject_Z (py_round x) <= Qhalf.
Proof.
  unfold py_round, Qhalf.
  destruct (Qfloor_bounds x) as [Hlo Hhi].
  destruct (Qcompare_spec (x - inject_Z (Qfloor x)) (1 # 2)) as [He | Hl | Hg].
  - destruct (Z.even (Qfloor x)).
    + lra.
    + rewrite inject_Z_plus. change (inject_Z 1) with 1. lra.
  - lra.
  - rewrite inject_Z_plus. change (inject_Z 1) with 1. lra.
Qed.

Lemma py_round_comp (x y : Q) : x == y -> py_round x = py_round y.
Proof.
  intros H. unfold py_round. cbv zeta.
  rewrite (Qfloor_comp _ _ H).
  rewrite (Qcompare_comp _ _ (Qminus_comp _ _ H _ _ (Qeq_refl _)) _ _ (Qeq_refl Qhalf)).
  reflexivity.
Qed.

Lemma Qfloor_unique (x : Q) (n : Z) :
  inject_Z n <= x -> x < inject_Z n + 1 -> Qfloor x = n.
Proof.
  intros Hlo Hhi. symmetry. apply Z.le_antisymm.
  - rewrite <- (Qfloor_Z n). now apply Qfloor_resp_le.
  - apply Z.lt_succ_r. rewrite Zlt_Qlt.
    eapply Qle_lt_trans; [apply Qfloor_le|].
    rewrite <- Z.add_1_r, inject_Z_plus. exact Hhi.
Qed.

(** ** Pattern Finder: the indexed loop read along the list *)

Lemma skipn_cons_nth {A : Type} (l : list A) (j : nat) (a : A) (r : list A) :
  skipn j l = a :: r -> nth_error l j = Some a /\ skipn (S j) l = r.
Proof.
  revert l. induction j as [|j IH]; intros [|x l] H; simpl in *;
    try discriminate.
  - inversion H; subst. now split.
  - apply IH in H. exact H.
Qed.

Lemma pattern_step_at (note_events : list note_event) (q : Q) (j : nat)
  (prev cur : note_event) (rest : list note_event) (st : list Q * histogram) :
  skipn j note_events = prev :: cur :: rest ->
  pattern_step note_events q st (S j)
  = (ioi <- quantized_ioi prev cur q ;;
     if Nat.eqb (length (fst st ++ [ioi])) 4
     then Ok (tl (fst st ++ [ioi]), incr (fst st ++ [ioi]) (snd st))
     else Ok (fst st ++ [ioi], snd st)).
Proof.
  intros H.
  destruct (skipn_cons_nth _ _ _ _ H) as [Hprev H'].
  destruct (skipn_cons_nth _ _ _ _ H') as [Hcur _].
  destruct st as [cp pats]. unfold pattern_step, get.
  rewrite Hcur. simpl. rewrite Nat.sub_0_r, Hprev. reflexivity.
Qed.

Lemma pattern_loop_index (note_events : list note_event) (q : Q)
  (rest : list note_event) :
  forall (j : nat) (prev : note_event) (st : list Q * histogram),
    skipn j note_events = prev :: rest ->
    for_loop (pattern_step note_events q) (seq (S j) (length rest)) st
    = pattern_loop q prev rest st.
Proof.
  induction rest as [|cur rest IH]; intros j prev st H.
  - reflexivity.
  - cbn [length seq for_loop pattern_loop].
    rewrite (pattern_step_at _ _ _ _ _ _ _ H).
    destruct (quantized_ioi prev cur q) as [ioi|e]; [|reflexivity].
    cbn [bind].
    apply skipn_cons_nth in H. destruct H as [_ H].
    destruct (Nat.eqb (length (fst st ++ [ioi])) 4); cbn [bind];
      now apply IH.
Qed.

Lemma find_rhythm_patterns_nil (q : Q) : find_rhythm_patterns [] q = Ok [].
Proof. reflexivity. Qed.

Lemma find_rhythm_patterns_cons (first : note_event)
  (rest : list note_event) (q : Q) :
  find_rhythm_patterns (first :: rest) q
  = (st <- pattern_loop q first rest ([], []) ;; Ok (snd st)).
Proof.
  unfold find_rhythm_patterns, py_range.
  cbn [length]. rewrite Nat.sub_succ, Nat.sub_0_r.
  now rewrite (pattern_loop_index (first :: rest) q rest 0 first).
Qed.

(** ** Pattern Finder: the loop records the overlapping 4-grams *)

Lemma windows_short (k : nat) (l : list Q) :
  (length l < k)%nat -> windows k l = [].
Proof.
  intros H. destruct l as [|a l]; [reflexivity|].
  cbn [windows]. apply Nat.leb_gt in H. now rewrite H.
Qed.

Lemma windows_length (l : list Q) :
  length (windows 4 l) = (length l - 3)%nat.
Proof.
  induction l as [|a l IH]; [reflexivity|].
  cbn [windows].
  destruct (4 <=? length (a :: l))%nat eqn:E.
  - apply Nat.leb_le in E. cbn [length] in *. rewrite IH. lia.
  - apply Nat.leb_gt in E. cbn [length] in *. lia.
Qed.

Lemma iois_from_length (q : Q) (rest : list note_event) :
  forall prev, length (iois_from prev rest q) = length rest.
Proof.
  induction rest as [|cur rest IH]; intros prev; simpl; [|rewrite IH];
    reflexivity.
Qed.

Lemma quantized_iois_length (note_events : list note_event) (q : Q) :
  length (quantized_iois note_events q) = (length note_events - 1)%nat.
Proof.
  destruct note_events as [|first rest]; [reflexivity|].
  cbn [quantized_iois length]. rewrite iois_from_length. lia.
Qed.

Lemma quantized_ioi_ok (a b : note_event) (q : Q) :
  ~ q == 0 ->
  quantized_ioi a b q
  = Ok (inject_Z (py_round ((start b - start a) / q)) * q).
Proof.
  intros Hq. unfold quantized_ioi. now rewrite (py_div_ok _ _ Hq).
Qed.

Lemma pattern_loop_windows (q : Q) (rest : list note_event) :
  ~ q == 0 ->
  forall (prev : note_event) (cp : list Q) (pats : histogram),
    (length cp <= 3)%nat ->
    exists cp',
      pattern_loop q prev rest (cp, pats)
      = Ok (cp', record_all (windows 4 (cp ++ iois_from prev rest q)) pats).
Proof.
  intros Hq.
  induction rest as [|cur rest IH]; intros prev cp pats Hlen.
  - exists cp. cbn [pattern_loop iois_from]. rewrite app_nil_r.
    rewrite windows_short by lia. reflexivity.
  - cbn [pattern_loop iois_from].
    rewrite (quantized_ioi_ok _ _ _ Hq). cbn [bind fst snd].
    set (ioi := inject_Z (py_round ((start cur - start prev) / q)) * q).
    destruct (Nat.eqb (length (cp ++ [ioi])) 4) eqn:E.
    + apply Nat.eqb_eq in E. rewrite length_app in E. cbn [length] in E.
      destruct cp as [|a [|b [|c [|d cp]]]]; cbn [length] in E; try lia.
      cbn [app tl].
      destruct (IH cur [b; c; ioi] (incr [a; b; c; ioi] pats)) as [cp' Hcp'];
        [cbn; lia|].
      exists cp'. rewrite Hcp'. reflexivity.
    + apply Nat.eqb_neq in E. rewrite length_app in E. cbn [length] in E.
      destruct (IH cur (cp ++ [ioi]) pats) as [cp' Hcp'].
      { rewrite length_app. cbn [length]. lia. }
      exists cp'. rewrite Hcp', <- app_assoc. reflexivity.
Qed.

Lemma find_rhythm_patterns_windows (note_events : list note_event) (q : Q) :
  ~ q == 0 ->
  find_rhythm_patterns note_events q
  = Ok (histogram_of (windows 4 (quantized_iois note_events q))).
Proof.
  intros Hq. destruct note_events as [|first rest]; [reflexivity|].
  rewrite find_rhythm_patterns_cons.
  destruct (pattern_loop_windows q rest Hq first [] []) as [cp' H];
    [cbn; lia|].
  unfold histogram in *. rewrite H. reflexivity.
Qed.

Lemma find_rhythm_patterns_zero (a b : note_event)
  (rest : list note_event) (q : Q) :
  q == 0 -> find_rhythm_patterns (a :: b :: rest) q = Err ZeroDivisionError.
Proof.
  intros Hq. rewrite find_rhythm_patterns_cons. cbn [pattern_loop].
  unfold quantized_ioi. now rewrite (py_div_zero _ _ Hq).
Qed.

(** ** Pattern Finder: counts *)

Lemma fold_left_add_shift (l : list Z) (a : Z) :
  fold_left Z.add l a = (a + py_sum l)%Z.
Proof.
  unfold py_sum. revert a. induction l as [|x l IH]; intros a; simpl.
  - lia.
  - rewrite IH, (IH x). lia.
Qed.

Lemma sum_counts_cons (k : pattern) (c : Z) (h : histogram) :
  sum_counts ((k, c) :: h) = (c + sum_counts h)%Z.
Proof.
  unfold sum_counts, py_sum. cbn [map snd fold_left].
  now rewrite fold_left_add_shift.
Qed.

Lemma sum_counts_incr (k : pattern) (h : histogram) :
  sum_counts (incr k h) = (sum_counts h + 1)%Z.
Proof.
  induction h as [|[k' c] h IH]; cbn [incr].
  - reflexivity.
  - destruct (pattern_eqb k' k); rewrite !sum_counts_cons; [|rewrite IH];
      lia.
Qed.

Lemma sum_counts_record_all (ws : list pattern) :
  forall h, sum_counts (record_all ws h)
            = (sum_counts h + Z.of_nat (length ws))%Z.
Proof.
  unfold record_all.
  induction ws as [|w ws IH]; intros h; cbn [fold_left length].
  - lia.
  - rewrite IH, sum_counts_incr. lia.
Qed.

Lemma four_grams_windows (note_events : list note_event) (q : Q) :
  Z.of_nat (length (windows 4 (quantized_iois note_events q)))
  = four_grams (length note_events).
Proof.
  rewrite windows_length, quantized_iois_length. unfold four_grams. lia.
Qed.

(** ** Pattern Finder: equality of keys *)

Lemma pattern_eqb_iff (p r : pattern) :
  pattern_eqb p r = true <-> same_pattern p r.
Proof.
  unfold same_pattern. revert r.
  induction p as [|a p IH]; intros [|b r]; cbn [pattern_eqb].
  - split; [constructor | reflexivity].
  - split; [discriminate | intros H; inversion H].
  - split; [discriminate | intros H; inversion H].
  - rewrite andb_true_iff, Qeq_bool_iff, IH. split.
    + intros [H1 H2]. now constructor.
    + intros H. inversion H; subst. now split.
Qed.

Lemma same_pattern_sym (p r : pattern) : same_pattern p r -> same_pattern r p.
Proof.
  unfold same_pattern. induction 1; constructor;
    [now symmetry | assumption].
Qed.

Lemma same_pattern_trans (p r s : pattern) :
  same_pattern p r -> same_pattern r s -> same_pattern p s.
Proof.
  unfold same_pattern. intros H. revert s.
  induction H as [|a b p r Hab _ IH]; intros s Hs; inversion Hs; subst.
  - constructor.
  - constructor; [now rewrite Hab | now apply IH].
Qed.

Lemma pattern_eqb_compat (p1 p2 k1 k2 : pattern) :
  same_pattern p1 p2 -> same_pattern k1 k2 ->
  pattern_eqb p1 k1 = pattern_eqb p2 k2.
Proof.
  intros Hp Hk. apply eq_true_iff_eq. rewrite !pattern_eqb_iff. split.
  - intros H. eapply same_pattern_trans; [apply same_pattern_sym, Hp|].
    eapply same_pattern_trans; eassumption.
  - intros H. eapply same_pattern_trans; [exact Hp|].
    eapply same_pattern_trans; [exact H | now apply same_pattern_sym].
Qed.

Lemma same_pattern_refl (p : pattern) : same_pattern p p.
Proof.
  unfold same_pattern. induction p; constructor; [reflexivity | assumption].
Qed.

(** ** Pattern Finder: histogram size *)

Lemma iois_from_nth (q : Q) (rest : list note_event) :
  forall (prev : note_event) (i : nat) (a b : note_event),
    nth_error (prev :: rest) i = Some a ->
    nth_error rest i = Some b ->
    nth_error (iois_from prev rest q) i
    = Some (inject_Z (py_round ((start b - start a) / q)) * q).
Proof.
  induction rest as [|cur rest IH]; intros prev [|i] a b Ha Hb;
    cbn in Ha, Hb; try discriminate.
  - inversion Ha; inversion Hb; subst. reflexivity.
  - cbn [iois_from nth_error]. now apply IH.
Qed.

Lemma windows_nth (l : list Q) :
  forall i, (i + 4 <= length l)%nat ->
    nth_error (windows 4 l) i = Some (firstn 4 (skipn i l)).
Proof.
  induction l as [|a l IH]; intros i Hi; cbn [length] in Hi; [lia|].
  cbn [windows].
  assert (E : (4 <=? length (a :: l))%nat = true)
    by (apply Nat.leb_le; cbn [length]; lia).
  rewrite E. destruct i as [|i]; [reflexivity|].
  cbn [nth_error skipn]. apply IH. lia.
Qed.

Lemma lookup_incr (k w : pattern) (h : histogram) :
  lookup k (incr w h)
  = (lookup k h + if pattern_eqb w k then 1 else 0)%Z.
Proof.
  induction h as [|[k' c] h IH]; cbn [incr lookup].
  - destruct (pattern_eqb w k); reflexivity.
  - destruct (pattern_eqb k' w) eqn:Ew; cbn [lookup].
    + apply pattern_eqb_iff in Ew.
      rewrite <- (pattern_eqb_compat k' w k k Ew (same_pattern_refl k)).
      destruct (pattern_eqb k' k); lia.
    + destruct (pattern_eqb k' k) eqn:Ek; [|exact IH].
      destruct (pattern_eqb w k) eqn:Ewk; [|lia].
      apply pattern_eqb_iff in Ek, Ewk.
      assert (Hkw : same_pattern k' w)
        by (eapply same_pattern_trans;
            [exact Ek | now apply same_pattern_sym]).
      apply pattern_eqb_iff in Hkw. congruence.
Qed.

Lemma lookup_record_all (k : pattern) (ws : list pattern) :
  forall h,
    lookup k (record_all ws h)
    = (lookup k h
       + Z.of_nat (length (filter (fun w => pattern_eqb w k) ws)))%Z.
Proof.
  unfold record_all.
  induction ws as [|w ws IH]; intros h; cbn [fold_left filter].
  - cbn. lia.
  - rewrite IH, lookup_incr.
    destruct (pattern_eqb w k); cbn [length]; lia.
Qed.

(** ** Pattern Finder: rounding of a tie *)

Lemma py_round_tie (x : Q) (n : Z) :
  x == inject_Z n + Qhalf ->
  py_round x = if Z.even n then n else (n + 1)%Z.
Proof.
  intros Hx.
  assert (Hf : Qfloor x = n).
  { apply Qfloor_unique; rewrite Hx; unfold Qhalf; lra. }
  unfold py_round. cbv zeta. rewrite Hf.
  assert (Hc : Qcompare (x - inject_Z n) Qhalf = Eq).
  { apply Qeq_alt. rewrite Hx. ring. }
  now rewrite Hc.
Qed.

(** ** Empty input *)

(** C5. On an empty note list the Density Profiler returns two empty
    sequences, the Pattern Finder an empty mapping, the Syncopation Scorer
    and the Groove Analyzer empty lists, whatever the other parameter is;
    none of them raises. *)
Theorem empty_input (window_size quantization beats_per_bar grid : Q) :
  analyze_note_density [] window_size = Ok ([], [])
  /\ find_rhythm_patterns [] quantization = Ok []
  /\ analyze_syncopation [] beats_per_bar = Ok []
  /\ analyze_groove [] grid = Ok [].
Proof. repeat split. Qed.

(** ** Loops that collect records *)

Lemma for_loop_ext {A S : Type} (body body' : S -> A -> result S)
  (l : list A) :
  (forall st a, In a l -> body st a = body' st a) ->
  forall st, for_loop body l st = for_loop body' l st.
Proof.
  induction l as [|a l IH]; intros Hext st; cbn [for_loop].
  - reflexivity.
  - rewrite (Hext st a (or_introl eq_refl)).
    destruct (body' st a) as [st'|e]; cbn [bind]; [|reflexivity].
    apply IH. intros st0 a0 Hin. apply Hext. now right.
Qed.


(** ** Groove Analyzer *)

Lemma analyze_groove_ok (note_events : list note_event) (q : Q) :
  ~ q == 0 -> analyze_groove note_events q = Ok (map (groove_of q) note_events).
Proof.
  intros Hq. unfold analyze_groove.
  rewrite (for_loop_ext _ (fun acc n => Ok (acc ++ [groove_of q n]))).
  - apply (for_loop_collect (groove_of q) note_events []).
  - intros st n _. unfold groove_step. now rewrite (py_div_ok _ _ Hq).
Qed.

Lemma analyze_groove_zero (n : note_event) (rest : list note_event) (q : Q) :
  q == 0 -> analyze_groove (n :: rest) q = Err ZeroDivisionError.
Proof.
  intros Hq. unfold analyze_groove, groove_step. cbn [for_loop].
  now rewrite (py_div_zero _ _ Hq).
Qed.

Lemma groove_deviation_bound (q : Q) (n : note_event) :
  0 < q -> - (q / 2) <= deviation (groove_of q n) <= q / 2.
Proof.
  intros Hq. cbn [groove_of deviation].
  pose proof (py_round_near (start n / q)) as Hr. unfold Qhalf in Hr.
  set (r := inject_Z (py_round (start n / q))) in *.
  assert (Hs : start n == start n / q * q) by (field; lra).
  set (x := start n / q) in *.
  destruct Hr as [Hlo Hhi].
  assert (H1 : 0 <= (x - r + (1 # 2)) * q)
    by (apply Qmult_le_0_compat; lra).
  assert (H2 : 0 <= ((1 # 2) - (x - r)) * q)
    by (apply Qmult_le_0_compat; lra).
  rewrite Hs. unfold Qdiv. change (/ 2) with (1 # 2). split; lra.
Qed.

(** The deviation reaches the lower end of the interval: a note at
    0.1875 on a grid of 0.125 sits 1.5 units in, the tie rounds to the even
    2, and the deviation is -0.0625 = -quantization/2. *)
Lemma groove_lower_endpoint :
  exists r,
    analyze_groove [note (3 # 16) 1 100] (1 # 8) = Ok [r]
    /\ deviation r == - ((1 # 8) / 2)
    /\ ~ (- ((1 # 8) / 2) < deviation r /\ deviation r <= (1 # 8) / 2).
Proof.
  eexists. split; [reflexivity|]. split; [reflexivity|].
  cbn. intros [H _]. discriminate H.
Qed.

(** C4, amended. For every note and every quantization q > 0 the groove
    deviation start - round(start/q)*q computed by [analyze_groove] lies in
    the closed interval [-q/2, +q/2]; one record is emitted per note, in
    order. *)
Theorem groove_bound (note_events : list note_event) (q : Q) :
  0 < q ->
  exists recs,
    analyze_groove note_events q = Ok recs
    /\ recs = map (groove_of q) note_events
    /\ Forall (fun r => - (q / 2) <= deviation r <= q / 2) recs.
Proof.
  intros Hq. exists (map (groove_of q) note_events).
  split; [apply analyze_groove_ok; lra|]. split; [reflexivity|].
  apply Forall_forall. intros r Hin.
  apply in_map_iff in Hin. destruct Hin as [n [<- _]].
  now apply groove_deviation_bound.
Qed.

Lemma groove_bound_witness :
  exists recs,
    analyze_groove (notes_at [26 # 100; 3 # 16; 1 # 16]) (1 # 8) = Ok recs
    /\ recs = map (groove_of (1 # 8)) (notes_at [26 # 100; 3 # 16; 1 # 16])
    /\ Forall (fun r => - ((1 # 8) / 2) <= deviation r <= (1 # 8) / 2) recs.
Proof.
  apply (groove_bound (notes_at [26 # 100; 3 # 16; 1 # 16]) (1 # 8)).
  reflexivity.
Defined.

(** ** Syncopation Scorer *)











(** ** Density Profiler *)

Lemma fold_max_spec (l : list Q) :
  forall x,
    let m := fold_left (fun m y => if Qlt_bool m y then y else m) l x in
    (m = x \/ In m l) /\ x <= m /\ Forall (fun y => y <= m) l.
Proof.
  induction l as [|y l IH]; intros x; cbn [fold_left].
  - split; [now left|]. split; [lra | constructor].
  - destruct (Qlt_bool x y) eqn:E.
    + apply Qlt_bool_iff in E.
      destruct (IH y) as [Hin [Hle Hall]].
      split; [right; destruct Hin as [->|Hin]; [now left | now right]|].
      split; [lra|]. constructor; assumption.
    + apply Qlt_bool_false_iff in E.
      destruct (IH x) as [Hin [Hle Hall]].
      split; [destruct Hin as [->|Hin]; [now left | right; now right]|].
      split; [exact Hle|]. constructor; [lra | exact Hall].
Qed.

Lemma py_max_spec (x : Q) (l : list Q) :
  exists m,
    py_max (x :: l) = Ok m /\ In m (x :: l)
    /\ Forall (fun y => y <= m) (x :: l).
Proof.
  destruct (fold_max_spec l x) as [Hin [Hle Hall]].
  eexists. split; [reflexivity|]. split.
  - destruct Hin as [->|Hin]; [now left | now right].
  - constructor; assumption.
Qed.

Lemma py_sum_ones {A : Type} (l : list A) :
  py_sum (map (fun _ => 1%Z) l) = Z.of_nat (length l).
Proof.
  induction l as [|a l IH]; [reflexivity|].
  unfold py_sum in *. cbn [map fold_left length].
  rewrite fold_left_add_shift. unfold py_sum. rewrite IH. lia.
Qed.

Lemma active_at_iff (t : Q) (n : note_event) :
  active_at t n = true <-> start n <= t /\ t <= end_ n.
Proof.
  unfold active_at. now rewrite andb_true_iff, !Qle_bool_iff.
Qed.

Lemma np_arange_ok (lo hi step : Q) :
  ~ step == 0 ->
  np_arange lo hi step
  = Ok (map (fun i => lo + inject_Z (Z.of_nat i) * step)
            (seq 0 (Z.to_nat (Qceiling ((hi - lo) / step))))).
Proof.
  intros Hs. unfold np_arange. now rewrite (py_div_ok _ _ Hs).
Qed.

Lemma analyze_note_density_ok (n : note_event) (rest : list note_event)
  (w max_time : Q) :
  ~ w == 0 ->
  py_max (map end_ (n :: rest)) = Ok max_time ->
  analyze_note_density (n :: rest) w
  = Ok (map (fun i => 0 + inject_Z (Z.of_nat i) * w)
            (seq 0 (Z.to_nat (Qceiling ((max_time - 0) / w)))),
        map (notes_in_window (n :: rest))
            (map (fun i => 0 + inject_Z (Z.of_nat i) * w)
                 (seq 0 (Z.to_nat (Qceiling ((max_time - 0) / w)))))).
Proof.
  intros Hw Hmax. unfold analyze_note_density.
  rewrite Hmax. cbn [bind]. rewrite (np_arange_ok _ _ _ Hw). cbn [bind].
  rewrite (for_loop_collect (notes_in_window (n :: rest))). reflexivity.
Qed.

Lemma analyze_note_density_zero (n : note_event) (rest : list note_event)
  (w : Q) :
  w == 0 -> analyze_note_density (n :: rest) w = Err ZeroDivisionError.
Proof.
  intros Hw. unfold analyze_note_density.
  destruct (py_max_spec (end_ n) (map end_ rest)) as [m [Hm _]].
  cbn [map]. rewrite Hm. cbn [bind]. unfold np_arange.
  now rewrite (py_div_zero _ _ Hw).
Qed.

(** An integer lies below the ceiling of [x] exactly when it lies below
    [x]. *)
Lemma lt_Qceiling (k : Z) (x : Q) : (k < Qceiling x)%Z <-> inject_Z k < x.
Proof.
  split; intros H.
  - pose proof (Qceiling_lt x) as Hc.
    assert (Hk : (k <= Qceiling x - 1)%Z) by lia.
    rewrite Zle_Qle in Hk. lra.
  - rewrite Zlt_Qlt. pose proof (Qle_ceiling x). lra.
Qed.

Lemma sample_count (w max_time : Q) (k : nat) :
  0 < w ->
  (k < Z.to_nat (Qceiling ((max_time - 0) / w)))%nat
  <-> inject_Z (Z.of_nat k) * w < max_time.
Proof.
  intros Hw.
  assert (Hk : (k < Z.to_nat (Qceiling ((max_time - 0) / w)))%nat
               <-> (Z.of_nat k < Qceiling ((max_time - 0) / w))%Z) by lia.
  rewrite Hk, lt_Qceiling.
  set (x := (max_time - 0) / w).
  assert (Hx : max_time == x * w) by (unfold x; field; lra).
  set (c := inject_Z (Z.of_nat k)).
  split; intros H.
  - assert (0 < (x - c) * w) by (apply Qmult_lt_0_compat; lra). lra.
  - destruct (Qlt_le_dec c x) as [Hlt|Hge]; [exact Hlt|].
    assert (0 <= (c - x) * w) by (apply Qmult_le_0_compat; lra). lra.
Qed.

(** ** Pattern Finder: patterns that compare equal *)

Lemma incr_compat (k1 k2 : pattern) (h1 h2 : histogram) :
  same_pattern k1 k2 -> same_histogram h1 h2 ->
  same_histogram (incr k1 h1) (incr k2 h2).
Proof.
  unfold same_histogram. intros Hk H.
  induction H as [|[p1 c1] [p2 c2] h1 h2 [Hp Hc] Hrest IH]; cbn [incr].
  - constructor; [now split | constructor].
  - cbn [fst snd] in Hp, Hc. subst c2.
    rewrite (pattern_eqb_compat p1 p2 k1 k2 Hp Hk).
    destruct (pattern_eqb p2 k2).
    + constructor; [now split | exact Hrest].
    + constructor; [now split | exact IH].
Qed.

Lemma record_all_compat (ws1 ws2 : list pattern) :
  Forall2 same_pattern ws1 ws2 ->
  forall h1 h2, same_histogram h1 h2 ->
    same_histogram (record_all ws1 h1) (record_all ws2 h2).
Proof.
  unfold record_all.
  induction 1 as [|w1 w2 ws1 ws2 Hw _ IH]; intros h1 h2 Hh;
    cbn [fold_left].
  - exact Hh.
  - apply IH. now apply incr_compat.
Qed.

Lemma firstn_compat (k : nat) (l1 l2 : list Q) :
  Forall2 Qeq l1 l2 -> same_pattern (firstn k l1) (firstn k l2).
Proof.
  unfold same_pattern. intros H. revert k.
  induction H as [|a b l1 l2 Hab _ IH]; intros [|k]; cbn [firstn];
    constructor; [exact Hab | apply IH].
Qed.

Lemma windows_compat (k : nat) (l1 l2 : list Q) :
  Forall2 Qeq l1 l2 -> Forall2 same_pattern (windows k l1) (windows k l2).
Proof.
  induction 1 as [|a b l1 l2 Hab H IH]; cbn [windows].
  - constructor.
  - cbn [length]. rewrite (Forall2_length H).
    destruct (k <=? S (length l2))%nat; constructor; [|exact IH].
    apply firstn_compat. now constructor.
Qed.

(** * Further properties of the code *)

(** ** Stable sorting *)

Section StableSort.

Context {A : Type} (lt : A -> A -> bool).
Hypothesis lt_asym : forall a b, lt a b = true -> lt b a = false.

(** [a] may stand in front of [b]. *)
Let may_precede (a b : A) : Prop := lt b a = false.

Lemma insert_stable_perm (x : A) (l : list A) :
  Permutation (insert_stable lt x l) (x :: l).
Proof.
  induction l as [|y l IH]; cbn [insert_stable].
  - reflexivity.
  - destruct (lt y x); [|reflexivity].
    rewrite IH. apply perm_swap.
Qed.

Lemma py_sorted_perm (l : list A) : Permutation (py_sorted lt l) l.
Proof.
  induction l as [|x l IH]; cbn [py_sorted fold_right].
  - reflexivity.
  - fold (py_sorted lt l). rewrite insert_stable_perm. now constructor.
Qed.

Lemma insert_stable_hd (x y : A) (l : list A) :
  lt y x = true -> HdRel may_precede y l ->
  HdRel may_precede y (insert_stable lt x l).
Proof.
  intros Hyx Hhd. destruct l as [|z l]; cbn [insert_stable].
  - constructor. now apply lt_asym.
  - destruct (lt z x); constructor.
    + now inversion Hhd.
    + now apply lt_asym.
Qed.

Lemma insert_stable_sorted (x : A) (l : list A) :
  Sorted may_precede l -> Sorted may_precede (insert_stable lt x l).
Proof.
  induction 1 as [|y l Hs IH Hhd]; cbn [insert_stable].
  - repeat constructor.
  - destruct (lt y x) eqn:E.
    + constructor; [exact IH | now apply insert_stable_hd].
    + constructor; [now constructor | now constructor].
Qed.

Lemma py_sorted_sorted (l : list A) : Sorted may_precede (py_sorted lt l).
Proof.
  induction l as [|x l IH]; cbn [py_sorted fold_right].
  - constructor.
  - now apply insert_stable_sorted.
Qed.

(** A class [p] of items none of which comes strictly before another
    keeps its order. *)
Variable p : A -> bool.
Hypothesis p_tied :
  forall x y, p x = true -> p y = true -> lt y x = false.

Lemma insert_stable_filter (x : A) (l : list A) :
  filter p (insert_stable lt x l) = filter p (x :: l).
Proof.
  induction l as [|y l IH]; cbn [insert_stable]; [reflexivity|].
  destruct (lt y x) eqn:E; [|reflexivity].
  cbn [filter] in *. rewrite IH.
  destruct (p x) eqn:Ex, (p y) eqn:Ey; try reflexivity.
  rewrite (p_tied x y Ex Ey) in E. discriminate.
Qed.

Lemma py_sorted_filter (l : list A) :
  filter p (py_sorted lt l) = filter p l.
Proof.
  induction l as [|x l IH]; cbn [py_sorted fold_right]; [reflexivity|].
  fold (py_sorted lt l). rewrite insert_stable_filter.
  cbn [filter]. now rewrite IH.
Qed.

End StableSort.

(** ** Extraction of note events *)

Lemma by_start_asym (a b : note_event) :
  by_start a b = true -> by_start b a = false.
Proof.
  unfold by_start. rewrite Qlt_bool_iff, Qlt_bool_false_iff. lra.
Qed.

Lemma sorted_by_start_of_Sorted (l : list note_event) :
  Sorted (fun a b => by_start b a = false) l -> sorted_by_start l = true.
Proof.
  induction 1 as [|a l Hs IH Hhd]; [reflexivity|].
  destruct l as [|b l]; [reflexivity|].
  change (sorted_by_start (a :: b :: l))
    with (Qle_bool (start a) (start b) && sorted_by_start (b :: l)).
  rewrite IH, andb_true_r.
  inversion Hhd as [|? ? Hab]; subst.
  unfold by_start in Hab. apply Qlt_bool_false_iff in Hab.
  now apply Qle_bool_iff.
Qed.

Lemma extract_sorted (midi_data : pretty_midi.PrettyMIDI) :
  sorted_by_start (extract_note_events midi_data) = true.
Proof.
  apply sorted_by_start_of_Sorted.
  apply (py_sorted_sorted by_start by_start_asym).
Qed.

Lemma collect_inner (ins : pretty_midi.Instrument)
  (ns : list pretty_midi.Note) (acc : list note_event) :
  fold_left (fun note_events n => note_events ++ [event_of ins n]) ns acc
  = acc ++ map (event_of ins) ns.
Proof.
  revert acc. induction ns as [|n ns IH]; intros acc; cbn [fold_left map].
  - now rewrite app_nil_r.
  - rewrite IH, <- app_assoc. reflexivity.
Qed.

Lemma collect_events_flat (midi_data : pretty_midi.PrettyMIDI) :
  collect_events midi_data
  = flat_map (fun ins => map (event_of ins) (pretty_midi.notes ins))
             (pretty_midi.instruments midi_data).
Proof.
  unfold collect_events.
  assert (H : forall l acc,
             fold_left
               (fun note_events ins =>
                  fold_left
                    (fun note_events n => note_events ++ [event_of ins n])
                    (pretty_midi.notes ins) note_events) l acc
             = acc ++ flat_map
                        (fun ins => map (event_of ins) (pretty_midi.notes ins))
                        l).
  { induction l as [|ins l IH]; intros acc; cbn [fold_left flat_map].
    - now rewrite app_nil_r.
    - rewrite IH, collect_inner, <- app_assoc. reflexivity. }
  apply (H _ []).
Qed.

(** X1. The note events that [extract_note_events] returns are sorted
    ascending by start, the order [find_rhythm_patterns] relies on. *)
Theorem extract_note_events_sorted (midi_data : pretty_midi.PrettyMIDI) :
  sorted_by_start (extract_note_events midi_data) = true.
Proof. apply extract_sorted. Qed.

(** X2. [extract_note_events] returns one event per note of every
    instrument and nothing else: its result is a rearrangement of the notes
    taken instrument by instrument, each event carrying the note's start,
    end, pitch and velocity, the duration end - start and the program of
    its instrument. *)
Theorem extract_note_events_complete (midi_data : pretty_midi.PrettyMIDI) :
  Permutation (extract_note_events midi_data)
    (flat_map (fun ins => map (event_of ins) (pretty_midi.notes ins))
              (pretty_midi.instruments midi_data))
  /\ length (extract_note_events midi_data)
     = list_sum (map (fun ins => length (pretty_midi.notes ins))
                     (pretty_midi.instruments midi_data))
  /\ (forall e,
        In e (extract_note_events midi_data)
        <-> exists ins n,
              In ins (pretty_midi.instruments midi_data)
              /\ In n (pretty_midi.notes ins)
              /\ e = event_of ins n)
  /\ (forall e,
        In e (extract_note_events midi_data) ->
        duration e = end_ e - start e).
Proof.
  assert (Hp : Permutation (extract_note_events midi_data)
                 (flat_map
                    (fun ins => map (event_of ins) (pretty_midi.notes ins))
                    (pretty_midi.instruments midi_data))).
  { unfold extract_note_events. rewrite <- collect_events_flat.
    apply py_sorted_perm. }
  assert (Hin : forall e,
             In e (extract_note_events midi_data)
             <-> exists ins n,
                   In ins (pretty_midi.instruments midi_data)
                   /\ In n (pretty_midi.notes ins)
                   /\ e = event_of ins n).
  { intros e. split.
    - intros H. apply (Permutation_in _ Hp) in H.
      apply in_flat_map in H. destruct H as [ins [Hins H]].
      apply in_map_iff in H. destruct H as [n [<- Hn]].
      now exists ins, n.
    - intros [ins [n [Hins [Hn ->]]]].
      apply (Permutation_in _ (Permutation_sym Hp)).
      apply in_flat_map. exists ins. split; [exact Hins|].
      now apply in_map. }
  split; [exact Hp|]. split; [|split; [exact Hin|]].
  - rewrite (Permutation_length Hp). clear Hp Hin.
    generalize (pretty_midi.instruments midi_data).
    intros l. induction l as [|ins l IH]; [reflexivity|].
    simpl. now rewrite length_app, length_map, IH.
  - intros e He. apply Hin in He. destruct He as [ins [n [_ [_ ->]]]].
    reflexivity.
Qed.

(** X3. The sort of [extract_note_events] is stable: the notes that start
    at the same time come out in the order the instruments and their note
    lists give them. *)
Theorem extract_note_events_stable (midi_data : pretty_midi.PrettyMIDI)
  (s : Q) :
  filter (fun e => Qeq_bool (start e) s) (extract_note_events midi_data)
  = filter (fun e => Qeq_bool (start e) s)
      (flat_map (fun ins => map (event_of ins) (pretty_midi.notes ins))
                (pretty_midi.instruments midi_data)).
Proof.
  unfold extract_note_events. rewrite <- collect_events_flat.
  apply py_sorted_filter.
  intros x y Hx Hy. apply Qeq_bool_iff in Hx, Hy.
  unfold by_start. apply Qlt_bool_false_iff. lra.
Qed.

(** ** Pattern Finder: what the histogram holds *)

Lemma pattern_eqb_sym (p r : pattern) : pattern_eqb p r = pattern_eqb r p.
Proof.
  apply eq_true_iff_eq. rewrite !pattern_eqb_iff.
  split; apply same_pattern_sym.
Qed.

Lemma key_in_incr (k w : pattern) (h : histogram) :
  key_in k (incr w h) = key_in k h || pattern_eqb w k.
Proof.
  unfold key_in.
  induction h as [|[k' c] h IH]; cbn [incr existsb fst].
  - now rewrite orb_false_r.
  - destruct (pattern_eqb k' w) eqn:Ew; cbn [existsb fst].
    + apply pattern_eqb_iff in Ew.
      rewrite <- (pattern_eqb_compat k' w k k Ew (same_pattern_refl k)).
      destruct (pattern_eqb k' k); [reflexivity|].
      cbn [orb]. now rewrite orb_false_r.
    + rewrite IH. now rewrite orb_assoc.
Qed.

Lemma distinct_keys_incr (w : pattern) (h : histogram) :
  distinct_keys h = true -> distinct_keys (incr w h) = true.
Proof.
  induction h as [|[k c] h IH]; cbn [incr distinct_keys]; [reflexivity|].
  rewrite andb_true_iff, negb_true_iff. intros [Hk Hd].
  destruct (pattern_eqb k w) eqn:Ew; cbn [distinct_keys].
  - now rewrite Hk, Hd.
  - rewrite key_in_incr, Hk, (pattern_eqb_sym w k), Ew, (IH Hd).
    reflexivity.
Qed.

Lemma in_incr (w k : pattern) (c : Z) (h : histogram) :
  In (k, c) (incr w h) ->
  (k = w /\ c = 1%Z) \/ In (k, c) h \/ In (k, (c - 1)%Z) h.
Proof.
  induction h as [|[k' c'] h IH]; cbn [incr].
  - intros [H|[]]. inversion H. now left.
  - destruct (pattern_eqb k' w).
    + intros [H|H].
      * inversion H; subst. right. right. left. f_equal. lia.
      * right. left. now right.
    + intros [H|H].
      * right. left. now left.
      * destruct (IH H) as [H1|[H1|H1]].
        -- now left.
        -- right. left. now right.
        -- right. right. now right.
Qed.

(** What [record_all] keeps true of a histogram: its keys are distinct and
    satisfy whatever the recorded patterns satisfy, its counts are at
    least 1. *)
Lemma record_all_invariant (P : pattern -> Prop) (ws : list pattern) :
  (forall w, In w ws -> P w) ->
  forall h,
    distinct_keys h = true ->
    (forall k c, In (k, c) h -> P k /\ (1 <= c)%Z) ->
    distinct_keys (record_all ws h) = true
    /\ (forall k c, In (k, c) (record_all ws h) -> P k /\ (1 <= c)%Z).
Proof.
  unfold record_all.
  induction ws as [|w ws IH]; intros Hws h Hd Hh; cbn [fold_left].
  - split; assumption.
  - apply IH.
    + intros w' Hw'. apply Hws. now right.
    + now apply distinct_keys_incr.
    + intros k c Hin. apply in_incr in Hin.
      destruct Hin as [[-> ->]|[Hin|Hin]].
      * split; [apply Hws; now left | lia].
      * now apply Hh.
      * destruct (Hh _ _ Hin) as [Hk Hc]. split; [exact Hk | lia].
Qed.

Lemma lookup_distinct (k : pattern) (c : Z) (h : histogram) :
  distinct_keys h = true -> In (k, c) h -> lookup k h = c.
Proof.
  induction h as [|[k' c'] h IH]; cbn [distinct_keys lookup];
    [intros _ []|].
  rewrite andb_true_iff, negb_true_iff. intros [Hk Hd] [Hin|Hin].
  - inversion Hin; subst.
    assert (E : pattern_eqb k k = true)
      by apply pattern_eqb_iff, same_pattern_refl.
    now rewrite E.
  - destruct (pattern_eqb k' k) eqn:E; [|now apply IH].
    exfalso. unfold key_in in Hk.
    assert (Hex : existsb (fun kv => pattern_eqb (fst kv) k') h = true).
    { apply existsb_exists. exists (k, c). split; [exact Hin|].
      cbn [fst]. now rewrite pattern_eqb_sym. }
    congruence.
Qed.

Lemma windows_in (k : nat) (l : list Q) (w : pattern) :
  In w (windows k l) ->
  length w = k /\ (forall x, In x w -> In x l).
Proof.
  induction l as [|a l IH]; cbn [windows]; [intros []|].
  destruct (k <=? length (a :: l))%nat eqn:E; [|intros []].
  apply Nat.leb_le in E. intros [<-|Hin].
  - split; [now apply firstn_length_le|].
    intros x Hx. rewrite <- (firstn_skipn k (a :: l)).
    apply in_or_app. now left.
  - destruct (IH Hin) as [Hlen Hsub]. split; [exact Hlen|].
    intros x Hx. right. now apply Hsub.
Qed.

Lemma iois_from_multiple (q : Q) (rest : list note_event) :
  forall prev x, In x (iois_from prev rest q) -> exists z, x = inject_Z z * q.
Proof.
  induction rest as [|cur rest IH]; intros prev x; cbn [iois_from];
    [intros []|].
  intros [<-|Hin]; [eexists; reflexivity | now apply (IH cur)].
Qed.

Lemma find_rhythm_patterns_ok_inv (note_events : list note_event) (q : Q)
  (h : histogram) :
  find_rhythm_patterns note_events q = Ok h ->
  h = histogram_of (windows 4 (quantized_iois note_events q)).
Proof.
  intros H. destruct (Qeq_dec q 0) as [Hz|Hnz].
  - destruct note_events as [|a [|b rest]].
    + cbn in H. now inversion H.
    + cbn in H. now inversion H.
    + rewrite (find_rhythm_patterns_zero _ _ _ _ Hz) in H. discriminate.
  - rewrite (find_rhythm_patterns_windows _ _ Hnz) in H. now inversion H.
Qed.

(** X4. Whatever the input, every histogram [find_rhythm_patterns] returns
    is a well-formed mapping: no two keys compare equal, every key is a
    4-tuple of integer multiples of the quantization, every count is at
    least 1 and is what a lookup of its key gives. *)
Theorem histogram_well_formed (note_events : list note_event) (q : Q)
  (h : histogram) :
  find_rhythm_patterns note_events q = Ok h ->
  distinct_keys h = true
  /\ (forall k c,
        In (k, c) h ->
        length k = 4%nat
        /\ Forall (fun x => exists z, x = inject_Z z * q) k
        /\ (1 <= c)%Z
        /\ lookup k h = c).
Proof.
  intros H. apply find_rhythm_patterns_ok_inv in H. subst h.
  set (P := fun k : pattern =>
              length k = 4%nat
              /\ Forall (fun x => exists z, x = inject_Z z * q) k).
  destruct (record_all_invariant P
              (windows 4 (quantized_iois note_events q)))
    with (h := @nil (pattern * Z)) as [Hd Hall].
  - intros w Hw. apply windows_in in Hw. destruct Hw as [Hlen Hsub].
    split; [exact Hlen|]. apply Forall_forall. intros x Hx.
    apply Hsub in Hx. destruct note_events as [|first rest]; [destruct Hx|].
    now apply (iois_from_multiple q rest first).
  - reflexivity.
  - intros k c [].
  - split; [exact Hd|]. intros k c Hin.
    destruct (Hall k c Hin) as [[Hlen Hmul] Hc].
    repeat split; try assumption.
    now apply lookup_distinct.
Qed.

Lemma histogram_well_formed_witness :
  distinct_keys
    [([1 # 4; 1 # 4; 1 # 4; 1 # 4], 2%Z); ([1 # 4; 1 # 4; 1 # 4; 3 # 4], 1%Z);
     ([1 # 4; 1 # 4; 3 # 4; 1 # 4], 1%Z)] = true
  /\ (forall k c,
        In (k, c)
           [([1 # 4; 1 # 4; 1 # 4; 1 # 4], 2%Z);
            ([1 # 4; 1 # 4; 1 # 4; 3 # 4], 1%Z);
            ([1 # 4; 1 # 4; 3 # 4; 1 # 4], 1%Z)] ->
        length k = 4%nat
        /\ Forall (fun x => exists z, x = inject_Z z * (1 # 4)) k
        /\ (1 <= c)%Z
        /\ lookup k
             [([1 # 4; 1 # 4; 1 # 4; 1 # 4], 2%Z);
              ([1 # 4; 1 # 4; 1 # 4; 3 # 4], 1%Z);
              ([1 # 4; 1 # 4; 3 # 4; 1 # 4], 1%Z)] = c).
Proof.
  apply (histogram_well_formed
           (notes_at [0; 1 # 4; 1 # 2; 3 # 4; 1; 5 # 4; 2; 9 # 4]) (1 # 4)).
  reflexivity.
Defined.

(** ** Pattern Finder on sorted input *)

Lemma py_round_nonneg (x : Q) : 0 <= x -> (0 <= py_round x)%Z.
Proof.
  intros Hx.
  assert (Hf : (0 <= Qfloor x)%Z).
  { change 0%Z with (Qfloor 0). now apply Qfloor_resp_le. }
  unfold py_round. cbv zeta.
  destruct (Qcompare (x - inject_Z (Qfloor x)) Qhalf);
    [destruct (Z.even (Qfloor x))| |]; lia.
Qed.

Lemma sorted_by_start_cons (a b : note_event) (l : list note_event) :
  sorted_by_start (a :: b :: l) = true ->
  start a <= start b /\ sorted_by_start (b :: l) = true.
Proof.
  change (sorted_by_start (a :: b :: l))
    with (Qle_bool (start a) (start b) && sorted_by_start (b :: l)).
  rewrite andb_true_iff, Qle_bool_iff. tauto.
Qed.

Lemma iois_from_nonneg (q : Q) (rest : list note_event) :
  0 < q ->
  forall prev,
    sorted_by_start (prev :: rest) = true ->
    Forall (fun x => 0 <= x) (iois_from prev rest q).
Proof.
  intros Hq. induction rest as [|cur rest IH]; intros prev Hs;
    cbn [iois_from]; constructor.
  - apply sorted_by_start_cons in Hs. destruct Hs as [Hle _].
    assert (Hx : 0 <= (start cur - start prev) / q).
    { apply Qle_shift_div_l; [exact Hq | lra]. }
    apply py_round_nonneg in Hx. rewrite Zle_Qle in Hx.
    apply Qmult_le_0_compat; [exact Hx | lra].
  - apply IH. now apply sorted_by_start_cons in Hs.
Qed.

Lemma sorted_patterns_nonneg (note_events : list note_event) (q : Q) :
  sorted_by_start note_events = true ->
  0 < q ->
  exists h,
    find_rhythm_patterns note_events q = Ok h
    /\ sum_counts h = four_grams (length note_events)
    /\ (forall k c, In (k, c) h -> Forall (fun x => 0 <= x) k).
Proof.
  intros Hs Hq. assert (Hq0 : ~ q == 0) by lra.
  exists (histogram_of (windows 4 (quantized_iois note_events q))).
  split; [now apply find_rhythm_patterns_windows|]. split.
  - unfold histogram_of. rewrite sum_counts_record_all.
    now rewrite four_grams_windows.
  - destruct (record_all_invariant (fun k => Forall (fun x => 0 <= x) k)
                (windows 4 (quantized_iois note_events q)))
      with (h := @nil (pattern * Z)) as [_ Hall].
    + intros w Hw. apply windows_in in Hw. destruct Hw as [_ Hsub].
      apply Forall_forall. intros x Hx. apply Hsub in Hx.
      destruct note_events as [|first rest]; [destruct Hx|].
      pose proof (iois_from_nonneg q rest Hq first Hs) as Hnn.
      rewrite Forall_forall in Hnn. now apply Hnn.
    + reflexivity.
    + intros k c [].
    + intros k c Hin. now apply (Hall k c).
Qed.



(** ** Pattern Finder: shifting the piece in time *)

Lemma iois_from_shifted (d q : Q) (rest : list note_event) :
  forall prev prev',
    start prev' == start prev + d ->
    Forall2 Qeq (iois_from prev' (shifted d rest) q) (iois_from prev rest q).
Proof.
  induction rest as [|cur rest IH]; intros prev prev' Hp;
    cbn [shifted map iois_from]; constructor.
  - cbn [start].
    assert (Hx : (start cur + d - start prev') / q
                 == (start cur - start prev) / q).
    { rewrite Hp. unfold Qdiv. ring. }
    now rewrite (py_round_comp _ _ Hx).
  - apply IH. cbn [start]. reflexivity.
Qed.

(** X7. The patterns do not depend on where the piece starts: playing
    every note [d] seconds later leaves the outcome of
    [find_rhythm_patterns] unchanged, keys and counts alike. *)
Theorem pattern_shift_invariant (note_events : list note_event) (d q : Q) :
  same_outcome (find_rhythm_patterns (shifted d note_events) q)
               (find_rhythm_patterns note_events q).
Proof.
  destruct (Qeq_dec q 0) as [Hz|Hnz].
  - destruct note_events as [|a [|b rest]]; cbn [shifted map].
    + constructor.
    + constructor.
    + rewrite !(find_rhythm_patterns_zero _ _ _ _ Hz). reflexivity.
  - rewrite !(find_rhythm_patterns_windows _ _ Hnz).
    cbn [same_outcome]. unfold histogram_of.
    apply record_all_compat; [|constructor].
    apply windows_compat.
    destruct note_events as [|first rest]; cbn [shifted map quantized_iois].
    + constructor.
    + apply iois_from_shifted. reflexivity.
Qed.

(** ** Density Profiler: shape of the profile *)

Lemma notes_in_window_bounds (note_events : list note_event) (t : Q) :
  (0 <= notes_in_window note_events t <= Z.of_nat (length note_events))%Z.
Proof.
  unfold notes_in_window. rewrite py_sum_ones.
  pose proof (filter_length_le (active_at t) note_events). lia.
Qed.

Lemma density_ok_inv (note_events : list note_event) (w : Q)
  (times : list Q) (counts : list Z) :
  ~ w == 0 ->
  note_events <> [] ->
  analyze_note_density note_events w = Ok (times, counts) ->
  exists max_time,
    py_max (map end_ note_events) = Ok max_time
    /\ In max_time (map end_ note_events)
    /\ Forall (fun e => e <= max_time) (map end_ note_events)
    /\ times = map (fun i => 0 + inject_Z (Z.of_nat i) * w)
                   (seq 0 (Z.to_nat (Qceiling ((max_time - 0) / w))))
    /\ counts = map (notes_in_window note_events) times.
Proof.
  intros Hw Hne H. destruct note_events as [|n rest]; [contradiction|].
  destruct (py_max_spec (end_ n) (map end_ rest)) as [m [Hm [Hin Hall]]].
  change (end_ n :: map end_ rest) with (map end_ (n :: rest)) in *.
  rewrite (analyze_note_density_ok _ _ _ _ Hw Hm) in H.
  inversion H; subst. exists m. repeat split; assumption.
Qed.

(** X8. For a window > 0, every count of the density profile lies between
    0 and the number of notes, and the sample times are non-negative and
    strictly increasing.  The profile is empty when no note ends after
    time 0, and otherwise its first sample is at time 0. *)
Theorem density_shape (note_events : list note_event) (w : Q)
  (times : list Q) (counts : list Z) :
  0 < w ->
  analyze_note_density note_events w = Ok (times, counts) ->
  Forall (fun c => (0 <= c <= Z.of_nat (length note_events))%Z) counts
  /\ Forall (fun t => 0 <= t) times
  /\ (forall i j ti tj,
        (i < j)%nat ->
        nth_error times i = Some ti -> nth_error times j = Some tj ->
        ti < tj)
  /\ ((forall n, In n note_events -> end_ n <= 0) ->
      times = [] /\ counts = [])
  /\ ((exists n, In n note_events /\ 0 < end_ n) ->
      exists t0 rest, times = t0 :: rest /\ t0 == 0).
Proof.
  intros Hw H. assert (Hw0 : ~ w == 0) by lra.
  destruct note_events as [|n0 rest0].
  { cbn in H. inversion H; subst.
    repeat split; try constructor.
    - intros [|i] j ti tj _ Hi; discriminate.
    - intros [n [[] _]]. }
  assert (Hne : n0 :: rest0 <> []) by discriminate.
  destruct (density_ok_inv _ _ _ _ Hw0 Hne H)
    as [m [_ [Hin [Hall [Ht Hc]]]]].
  clear Hne.
  set (notes := n0 :: rest0) in *. clearbody notes. clear H.
  assert (Hnth : forall i t, nth_error times i = Some t ->
                             t == inject_Z (Z.of_nat i) * w).
  { intros i t Hi. rewrite Ht, nth_error_map in Hi.
    destruct (nth_error (seq 0 _) i) as [k|] eqn:Ek; [|discriminate].
    assert (Hlt : (i < Z.to_nat (Qceiling ((m - 0) / w)))%nat).
    { assert (Hs : nth_error (seq 0 (Z.to_nat (Qceiling ((m - 0) / w)))) i
                   <> None) by congruence.
      apply nth_error_Some in Hs. now rewrite length_seq in Hs. }
    rewrite nth_error_seq in Ek. apply Nat.ltb_lt in Hlt.
    rewrite Hlt in Ek. inversion Ek; subst. cbn in Hi.
    inversion Hi; subst. ring. }
  split; [|split; [|split; [|split]]].
  - rewrite Hc. apply Forall_forall. intros c Hin'.
    apply in_map_iff in Hin'. destruct Hin' as [t [<- _]].
    apply notes_in_window_bounds.
  - apply Forall_forall. intros t Hin'.
    apply In_nth_error in Hin'. destruct Hin' as [i Hi].
    rewrite (Hnth _ _ Hi).
    apply Qmult_le_0_compat; [|lra].
    change 0 with (inject_Z 0). rewrite <- Zle_Qle. lia.
  - intros i j ti tj Hij Hi Hj.
    rewrite (Hnth _ _ Hi), (Hnth _ _ Hj).
    assert (Hz : inject_Z (Z.of_nat i) < inject_Z (Z.of_nat j))
      by (rewrite <- Zlt_Qlt; lia).
    assert (0 < (inject_Z (Z.of_nat j) - inject_Z (Z.of_nat i)) * w)
      by (apply Qmult_lt_0_compat; lra).
    lra.
  - intros Hends.
    assert (Hm : m <= 0).
    { apply in_map_iff in Hin. destruct Hin as [a [<- Ha]].
      now apply Hends. }
    assert (Hlen : Z.to_nat (Qceiling ((m - 0) / w)) = 0%nat).
    { destruct (Z.to_nat (Qceiling ((m - 0) / w))) as [|k] eqn:E;
        [reflexivity|].
      assert (Hk : (0 < Z.to_nat (Qceiling ((m - 0) / w)))%nat) by lia.
      apply (sample_count w m 0 Hw) in Hk.
      change (inject_Z (Z.of_nat 0)) with 0 in Hk. lra. }
    rewrite Hlen in Ht. cbn in Ht. subst times. now subst counts.
  - intros [n [Hn Hpos]].
    assert (Hm : 0 < m).
    { rewrite Forall_forall in Hall.
      assert (end_ n <= m) by (apply Hall; now apply in_map). lra. }
    assert (Hk : (0 < Z.to_nat (Qceiling ((m - 0) / w)))%nat).
    { apply (sample_count w m 0 Hw).
      change (inject_Z (Z.of_nat 0)) with 0. lra. }
    destruct (Z.to_nat (Qceiling ((m - 0) / w))) as [|k]; [lia|].
    cbn [seq map] in Ht. eexists. eexists. split; [exact Ht|].
    change (inject_Z (Z.of_nat 0)) with 0. ring.
Qed.

Lemma density_shape_witness :
  Forall (fun c => (0 <= c <= 2)%Z) [1%Z; 1%Z; 2%Z; 2%Z; 1%Z]
  /\ Forall (fun t => 0 <= t) [0 # 2; 1 # 2; 2 # 2; 3 # 2; 4 # 2].
Proof.
  destruct (density_shape
              [note 0 (5 # 2) 100; note 1 (3 # 2) 1] (1 # 2)
              [0 # 2; 1 # 2; 2 # 2; 3 # 2; 4 # 2]
              [1%Z; 1%Z; 2%Z; 2%Z; 1%Z] eq_refl eq_refl)
    as [H1 [H2 _]].
  split; [exact H1 | exact H2].
Defined.

(** ** The most common patterns *)

Lemma by_count_desc_asym (a b : pattern * Z) :
  by_count_desc a b = true -> by_count_desc b a = false.
Proof.
  unfold by_count_desc. rewrite Z.ltb_lt, Z.ltb_ge. lia.
Qed.

Lemma StronglySorted_app_inv {A : Type} (R : A -> A -> Prop)
  (l1 l2 : list A) :
  StronglySorted R (l1 ++ l2) ->
  StronglySorted R l1 /\ (forall a b, In a l1 -> In b l2 -> R a b).
Proof.
  induction l1 as [|x l1 IH]; cbn [app]; intros H.
  - split; [constructor | intros a b []].
  - inversion H as [|? ? Hs Hall]; subst.
    destruct (IH Hs) as [Hs1 Hcross]. rewrite Forall_forall in Hall.
    split.
    + constructor; [exact Hs1|]. apply Forall_forall. intros y Hy.
      apply Hall. apply in_or_app. now left.
    + intros a b [<-|Ha] Hb.
      * apply Hall. apply in_or_app. now right.
      * now apply Hcross.
Qed.

Lemma ranked_sorted (patterns : histogram) :
  StronglySorted (fun a b => (snd b <= snd a)%Z) (ranked patterns).
Proof.
  apply Sorted_StronglySorted.
  - intros a b c Hab Hbc. lia.
  - pose proof (py_sorted_sorted by_count_desc by_count_desc_asym patterns)
      as H.
    unfold ranked. induction H as [|a l Hs IH Hhd]; constructor.
    + exact IH.
    + destruct Hhd as [|b l Hab]; constructor.
      unfold by_count_desc in Hab. now apply Z.ltb_ge in Hab.
Qed.

(** X13. The ranking printed by the notebook holds min(5, number of
    patterns) entries of the histogram with counts in non-increasing order,
    and every entry left out has a count no larger than any entry kept. *)
Theorem most_common_top (patterns : histogram) :
  length (most_common patterns) = Nat.min 5 (length patterns)
  /\ StronglySorted (fun a b => (snd b <= snd a)%Z) (most_common patterns)
  /\ exists rest,
       Permutation (most_common patterns ++ rest) patterns
       /\ (forall a b,
             In a (most_common patterns) -> In b rest ->
             (snd b <= snd a)%Z).
Proof.
  unfold most_common.
  pose proof (ranked_sorted patterns) as Hs.
  rewrite <- (firstn_skipn 5 (ranked patterns)) in Hs.
  apply StronglySorted_app_inv in Hs. destruct Hs as [Hs Hcross].
  split; [|split; [exact Hs|]].
  - rewrite length_firstn. unfold ranked.
    now rewrite (Permutation_length (py_sorted_perm by_count_desc patterns)).
  - exists (skipn 5 (ranked patterns)). split; [|exact Hcross].
    rewrite firstn_skipn. apply py_sorted_perm.
Qed.

(** X14. Ties in the ranking go to the pattern seen first: among the
    entries with one and the same count, those that make it into the
    printed ranking are the first ones of the histogram, in its order. *)
Theorem most_common_ties_first_seen (patterns : histogram) (c : Z) :
  exists more,
    filter (fun kv => Z.eqb (snd kv) c) patterns
    = filter (fun kv => Z.eqb (snd kv) c) (most_common patterns) ++ more.
Proof.
  exists (filter (fun kv => Z.eqb (snd kv) c) (skipn 5 (ranked patterns))).
  unfold most_common. rewrite <- filter_app, firstn_skipn.
  symmetry. unfold ranked. apply py_sorted_filter.
  intros x y Hx Hy. apply Z.eqb_eq in Hx, Hy.
  unfold by_count_desc. apply Z.ltb_ge. lia.
Qed.

(** ** Pattern Finder on sorted input, after extraction *)

(** X6. The notebook's pipeline: for every MIDI object and every
    quantization > 0, whenever [find_rhythm_patterns] applied to the result
    of [extract_note_events] returns a histogram, its counts sum to
    max(0, N-4) for the N notes of all instruments together, and no
    recorded interval is negative. *)
Theorem extracted_patterns (midi_data : pretty_midi.PrettyMIDI) (q : Q)
  (h : histogram) :
  0 < q ->
  find_rhythm_patterns (extract_note_events midi_data) q = Ok h ->
  sum_counts h
  = four_grams
      (list_sum (map (fun ins => length (pretty_midi.notes ins))
                     (pretty_midi.instruments midi_data)))
  /\ (forall k c, In (k, c) h -> Forall (fun x => 0 <= x) k).
Proof.
  intros Hq Hrun.
  destruct (sorted_patterns_nonneg (extract_note_events midi_data) q
              (extract_sorted midi_data) Hq) as [h' [H [Hsum Hnn]]].
  rewrite Hrun in H. inversion H; subst h'. clear H.
  split; [|exact Hnn].
  rewrite Hsum. f_equal.
  unfold extract_note_events.
  rewrite (Permutation_length (py_sorted_perm by_start _)).
  rewrite collect_events_flat.
  generalize (pretty_midi.instruments midi_data).
  intros l. induction l as [|ins l IH]; [reflexivity|].
  simpl. now rewrite length_app, length_map, IH.
Qed.

Lemma extracted_patterns_witness :
  sum_counts
    [([0 # 4; 2 # 4; 1 # 4; 1 # 4], 1%Z); ([2 # 4; 1 # 4; 1 # 4; 2 # 4], 1%Z);
     ([1 # 4; 1 # 4; 2 # 4; 2 # 4], 1%Z)] = 3%Z
  /\ (forall k c,
        In (k, c)
           [([0 # 4; 2 # 4; 1 # 4; 1 # 4], 1%Z);
            ([2 # 4; 1 # 4; 1 # 4; 2 # 4], 1%Z);
            ([1 # 4; 1 # 4; 2 # 4; 2 # 4], 1%Z)] ->
        Forall (fun x => 0 <= x) k).
Proof.
  apply (extracted_patterns two_instruments (1 # 4)).
  - reflexivity.
  - reflexivity.
Defined.

(** * The code over binary64 floats *)

Module Binary64Facts.

Import Binary64.
#[local] Set Warnings "-inexact-float".
Local Open Scope float_scope.

(** ** Pattern Finder: the loop records the 4-grams of the IOIs *)

Lemma pattern_step_at_f64 (k : scalar_kind) (note_events : list note_event)
  (q : float) (j : nat) (prev cur : note_event) (rest : list note_event)
  (st : list float * histogram) :
  skipn j note_events = prev :: cur :: rest ->
  pattern_step k note_events q st (S j)
  = (ioi <- quantized_ioi k prev cur q ;;
     if Nat.eqb (length (fst st ++ [ioi])) 4
     then Ok (tl (fst st ++ [ioi]), incr (fst st ++ [ioi]) (snd st))
     else Ok (fst st ++ [ioi], snd st)).
Proof.
  intros H.
  destruct (skipn_cons_nth _ _ _ _ H) as [Hprev H'].
  destruct (skipn_cons_nth _ _ _ _ H') as [Hcur _].
  destruct st as [cp pats]. unfold pattern_step, get.
  rewrite Hcur. simpl. rewrite Nat.sub_0_r, Hprev. reflexivity.
Qed.

Lemma windows_short_f64 (n : nat) (l : list float) :
  (length l < n)%nat -> windows n l = [].
Proof.
  intros H. destruct l as [|a l]; [reflexivity|].
  cbn [windows]. apply Nat.leb_gt in H. now rewrite H.
Qed.

Lemma windows_length_f64 (l : list float) :
  length (windows 4 l) = (length l - 3)%nat.
Proof.
  induction l as [|a l IH]; [reflexivity|].
  cbn [windows].
  destruct (4 <=? length (a :: l))%nat eqn:E.
  - apply Nat.leb_le in E. cbn [length] in *. rewrite IH. lia.
  - apply Nat.leb_gt in E. cbn [length] in *. lia.
Qed.

Lemma windows_nth_f64 (l : list float) :
  forall i, (i + 4 <= length l)%nat ->
    nth_error (windows 4 l) i = Some (firstn 4 (skipn i l)).
Proof.
  induction l as [|a l IH]; intros i Hi; cbn [length] in Hi; [lia|].
  cbn [windows].
  assert (E : (4 <=? length (a :: l))%nat = true)
    by (apply Nat.leb_le; cbn [length]; lia).
  rewrite E. destruct i as [|i]; [reflexivity|].
  cbn [nth_error skipn]. apply IH. lia.
Qed.

Lemma pattern_loop_spec (k : scalar_kind) (note_events : list note_event)
  (q : float) (rest : list note_event) :
  forall (j : nat) (prev : note_event) (cp : list float) (pats : histogram),
    skipn j note_events = prev :: rest ->
    (length cp <= 3)%nat ->
    (st <- for_loop (pattern_step k note_events q)
                    (seq (S j) (length rest)) (cp, pats) ;;
     Ok (snd st))
    = (iois <- iois_from k prev rest q ;;
       Ok (record_all (windows 4 (cp ++ iois)) pats)).
Proof.
  induction rest as [|cur rest IH]; intros j prev cp pats H Hlen.
  - cbn [length seq for_loop iois_from bind snd]. rewrite app_nil_r.
    rewrite windows_short_f64 by lia. reflexivity.
  - cbn [length seq for_loop iois_from].
    rewrite (pattern_step_at_f64 _ _ _ _ _ _ _ _ H). cbn [fst snd].
    destruct (quantized_ioi k prev cur q) as [ioi|e]; [|reflexivity].
    cbn [bind].
    apply skipn_cons_nth in H. destruct H as [_ H].
    destruct (Nat.eqb (length (cp ++ [ioi])) 4) eqn:E; cbn [bind].
    + apply Nat.eqb_eq in E. rewrite length_app in E. cbn [length] in E.
      destruct cp as [|a [|b [|c [|d cp]]]]; cbn [length] in E; try lia.
      cbn [app tl].
      rewrite (IH (S j) cur [b; c; ioi] (incr [a; b; c; ioi] pats) H)
        by (cbn; lia).
      destruct (iois_from k cur rest q) as [xs|e]; reflexivity.
    + apply Nat.eqb_neq in E. rewrite length_app in E. cbn [length] in E.
      rewrite (IH (S j) cur (cp ++ [ioi]) pats H)
        by (rewrite length_app; cbn [length]; lia).
      destruct (iois_from k cur rest q) as [xs|e]; [|reflexivity].
      cbn [bind]. now rewrite <- app_assoc.
Qed.

(** [find_rhythm_patterns] computes the quantized IOIs in order, fails
    like the first of them that fails, and otherwise returns the histogram
    of their overlapping 4-grams. *)
Lemma find_rhythm_patterns_spec (k : scalar_kind)
  (note_events : list note_event) (q : float) :
  find_rhythm_patterns k note_events q
  = (iois <- quantized_iois k note_events q ;;
     Ok (histogram_of (windows 4 iois))).
Proof.
  destruct note_events as [|first rest]; [reflexivity|].
  unfold find_rhythm_patterns, py_range, quantized_iois, histogram_of.
  cbn [length]. rewrite Nat.sub_succ, Nat.sub_0_r.
  apply (pattern_loop_spec k (first :: rest) q rest 0 first [] []).
  - reflexivity.
  - cbn. lia.
Qed.

Lemma find_rhythm_patterns_ok (k : scalar_kind)
  (note_events : list note_event) (q : float) (h : histogram) :
  find_rhythm_patterns k note_events q = Ok h ->
  exists iois,
    quantized_iois k note_events q = Ok iois
    /\ h = histogram_of (windows 4 iois).
Proof.
  rewrite find_rhythm_patterns_spec.
  destruct (quantized_iois k note_events q) as [iois|e]; cbn [bind];
    intros H; inversion H. now exists iois.
Qed.

Lemma iois_from_length_f64 (k : scalar_kind) (q : float)
  (rest : list note_event) :
  forall prev iois,
    iois_from k prev rest q = Ok iois -> length iois = length rest.
Proof.
  induction rest as [|cur rest IH]; intros prev iois; cbn [iois_from].
  - intros H. now inversion H.
  - destruct (quantized_ioi k prev cur q) as [x|e]; cbn [bind];
      [|discriminate].
    destruct (iois_from k cur rest q) as [xs|e] eqn:E; cbn [bind];
      [|discriminate].
    intros H. inversion H; subst. cbn [length]. f_equal. now apply (IH cur).
Qed.

Lemma quantized_iois_length_f64 (k : scalar_kind) (q : float)
  (note_events : list note_event) (iois : list float) :
  quantized_iois k note_events q = Ok iois ->
  length iois = (length note_events - 1)%nat.
Proof.
  destruct note_events as [|first rest]; cbn [quantized_iois].
  - intros H. now inversion H.
  - intros H. apply iois_from_length_f64 in H. cbn [length]. lia.
Qed.

Lemma iois_from_nth_f64 (k : scalar_kind) (q : float) (rest : list note_event) :
  forall (prev : note_event) (iois : list float) (i : nat)
         (a b : note_event),
    iois_from k prev rest q = Ok iois ->
    nth_error (prev :: rest) i = Some a ->
    nth_error rest i = Some b ->
    exists x, quantized_ioi k a b q = Ok x /\ nth_error iois i = Some x.
Proof.
  induction rest as [|cur rest IH]; intros prev iois i a b;
    cbn [iois_from].
  - intros _ _ Hb. destruct i; discriminate.
  - destruct (quantized_ioi k prev cur q) as [x|e] eqn:Ex; cbn [bind];
      [|discriminate].
    destruct (iois_from k cur rest q) as [xs|e] eqn:E; cbn [bind];
      [|discriminate].
    intros H Ha Hb. inversion H; subst. destruct i as [|i].
    + cbn in Ha, Hb. inversion Ha; inversion Hb; subst.
      exists x. now split.
    + cbn [nth_error] in *. now apply (IH cur xs i a b).
Qed.

Lemma quantized_iois_nth (k : scalar_kind) (q : float)
  (note_events : list note_event) (iois : list float) (i : nat)
  (a b : note_event) :
  quantized_iois k note_events q = Ok iois ->
  nth_error note_events i = Some a ->
  nth_error note_events (S i) = Some b ->
  exists x, quantized_ioi k a b q = Ok x /\ nth_error iois i = Some x.
Proof.
  destruct note_events as [|first rest]; cbn [quantized_iois].
  - intros _ Ha. destruct i; discriminate.
  - intros H Ha Hb. now apply (iois_from_nth_f64 k q rest first iois i a b).
Qed.

Lemma sum_counts_cons_f64 (key : pattern) (c : Z) (h : histogram) :
  sum_counts ((key, c) :: h) = (c + sum_counts h)%Z.
Proof.
  unfold sum_counts, py_sum. cbn [map snd fold_left].
  now rewrite fold_left_add_shift.
Qed.

Lemma sum_counts_incr_f64 (key : pattern) (h : histogram) :
  sum_counts (incr key h) = (sum_counts h + 1)%Z.
Proof.
  induction h as [|[key' c] h IH]; cbn [incr].
  - reflexivity.
  - destruct (pattern_eqb key' key); rewrite !sum_counts_cons_f64;
      [|rewrite IH]; lia.
Qed.

Lemma sum_counts_record_all_f64 (ws : list pattern) :
  forall h, sum_counts (record_all ws h)
            = (sum_counts h + Z.of_nat (length ws))%Z.
Proof.
  unfold record_all.
  induction ws as [|w ws IH]; intros h; cbn [fold_left length].
  - lia.
  - rewrite IH, sum_counts_incr_f64. lia.
Qed.

Lemma histogram_size (note_events : list note_event) (iois : list float) :
  length iois = (length note_events - 1)%nat ->
  Z.of_nat (length (windows 4 iois)) = four_grams (length note_events)
  /\ sum_counts (histogram_of (windows 4 iois))
     = four_grams (length note_events)
  /\ ((length note_events < 5)%nat -> histogram_of (windows 4 iois) = []).
Proof.
  intros Hlen.
  assert (Hw : Z.of_nat (length (windows 4 iois))
               = four_grams (length note_events)).
  { rewrite windows_length_f64, Hlen. unfold four_grams. lia. }
  split; [exact Hw|]. split.
  - unfold histogram_of. rewrite sum_counts_record_all_f64, Hw. reflexivity.
  - intros H. rewrite windows_short_f64; [reflexivity | lia].
Qed.

(** An input of the kind C1 describes on which no histogram is returned:
    five notes one second apart and the smallest positive quantization;
    each quotient overflows to infinity and [round] raises. *)
Lemma tiny_quantization_overflows :
  sorted_by_start (notes_at [0; 1; 2; 3; 4]) = true
  /\ (0 <? 5e-324) = true
  /\ find_rhythm_patterns PyFloat (notes_at [0; 1; 2; 3; 4]) 5e-324
     = Err OverflowError
  /\ find_rhythm_patterns NpFloat64 (notes_at [0; 1; 2; 3; 4]) 5e-324
     = Err OverflowError.
Proof. repeat split; vm_compute; reflexivity. Qed.

(** C1, amended. For every list of N notes sorted ascending by start and
    every quantization > 0, whenever [find_rhythm_patterns] returns a
    histogram, it is the histogram of the overlapping 4-grams of the
    quantized IOIs (the i-th IOI is the value the code computes for the
    notes i and i+1, the i-th 4-gram is made of the IOIs i .. i+3); there
    are max(0, N-4) 4-grams, the counts sum to max(0, N-4), and with fewer
    than 5 notes the histogram is empty. *)
Theorem pattern_histogram_size (k : scalar_kind)
  (note_events : list note_event) (q : float) (h : histogram) :
  sorted_by_start note_events = true ->
  (0 <? q) = true ->
  find_rhythm_patterns k note_events q = Ok h ->
  exists iois grams,
    quantized_iois k note_events q = Ok iois
    /\ length iois = (length note_events - 1)%nat
    /\ (forall i a b,
          nth_error note_events i = Some a ->
          nth_error note_events (S i) = Some b ->
          exists x,
            quantized_ioi k a b q = Ok x /\ nth_error iois i = Some x)
    /\ grams = windows 4 iois
    /\ (forall i, (i + 4 <= length iois)%nat ->
          nth_error grams i = Some (firstn 4 (skipn i iois)))
    /\ h = histogram_of grams
    /\ Z.of_nat (length grams) = four_grams (length note_events)
    /\ sum_counts h = four_grams (length note_events)
    /\ ((length note_events < 5)%nat -> h = []).
Proof.
  intros _ _ H.
  destruct (find_rhythm_patterns_ok _ _ _ _ H) as [iois [Hi ->]].
  pose proof (quantized_iois_length_f64 _ _ _ _ Hi) as Hlen.
  destruct (histogram_size note_events iois Hlen) as [H1 [H2 H3]].
  exists iois, (windows 4 iois).
  split; [exact Hi|]. split; [exact Hlen|]. split.
  { intros i a b. now apply quantized_iois_nth. }
  split; [reflexivity|]. split; [apply windows_nth_f64|].
  split; [reflexivity|]. repeat split; assumption.
Qed.

Lemma pattern_histogram_size_witness :
  exists iois,
    quantized_iois PyFloat
      (notes_at [0; 0.25; 0.5; 0.75; 1; 1.25; 2; 2.25]) 0.25 = Ok iois
    /\ sum_counts
         [([0.25; 0.25; 0.25; 0.25], 2%Z); ([0.25; 0.25; 0.25; 0.75], 1%Z);
          ([0.25; 0.25; 0.75; 0.25], 1%Z)] = four_grams 8.
Proof.
  destruct (pattern_histogram_size PyFloat
              (notes_at [0; 0.25; 0.5; 0.75; 1; 1.25; 2; 2.25]) 0.25
              [([0.25; 0.25; 0.25; 0.25], 2%Z);
               ([0.25; 0.25; 0.25; 0.75], 1%Z);
               ([0.25; 0.25; 0.75; 0.25], 1%Z)])
    as [iois [grams [H1 [_ [_ [_ [_ [_ [_ [H2 _]]]]]]]]]].
  - reflexivity.
  - reflexivity.
  - vm_compute. reflexivity.
  - exists iois. split; assumption.
Defined.

(** Notes out of order and a quantization other than 0 on which no
    histogram is returned. *)
Lemma unsorted_tiny_quantization_overflows :
  (- 5e-324 =? 0) = false
  /\ find_rhythm_patterns PyFloat (notes_at [3; 1; 2; 0; 4; 1]) (- 5e-324)
     = Err OverflowError
  /\ find_rhythm_patterns NpFloat64 (notes_at [3; 1; 2; 0; 4; 1]) (- 5e-324)
     = Err OverflowError.
Proof. repeat split; vm_compute; reflexivity. Qed.

Lemma quantized_ioi_errors (k : scalar_kind) (a b : note_event) (q : float)
  (e : exn) :
  quantized_ioi k a b q = Err e ->
  e = ZeroDivisionError \/ e = OverflowError \/ e = ValueError.
Proof.
  unfold quantized_ioi, py_div, py_round, float_of_int.
  destruct k.
  - destruct (q =? 0); cbn [bind]; [intros H; inversion H; now left|].
    destruct (Prim2SF ((start b - start a) / q));
      try destruct (exact ((start b - start a) / q)); cbn [bind];
      try (intros H; inversion H; tauto);
      destruct (is_infinity _); cbn [bind]; intros H; inversion H; tauto.
  - cbn [bind].
    destruct (Prim2SF ((start b - start a) / q));
      try destruct (exact ((start b - start a) / q)); cbn [bind];
      try (intros H; inversion H; tauto);
      destruct (is_infinity _); cbn [bind]; intros H; inversion H; tauto.
Qed.

Lemma iois_from_errors (k : scalar_kind) (q : float)
  (rest : list note_event) :
  forall prev e,
    iois_from k prev rest q = Err e ->
    e = ZeroDivisionError \/ e = OverflowError \/ e = ValueError.
Proof.
  induction rest as [|cur rest IH]; intros prev e; cbn [iois_from];
    [discriminate|].
  destruct (quantized_ioi k prev cur q) as [x|e'] eqn:Ex; cbn [bind].
  - destruct (iois_from k cur rest q) as [xs|e''] eqn:E; cbn [bind];
      [discriminate|].
    intros H. inversion H; subst. now apply (IH cur).
  - intros H. inversion H; subst. now apply (quantized_ioi_errors k prev cur q).
Qed.

(** C10, amended. For every list of N notes in any order and every
    quantization, [find_rhythm_patterns] terminates: it returns a
    histogram exactly when every quantized IOI can be computed, and fails
    otherwise with ZeroDivisionError, OverflowError or ValueError (a
    quotient that is infinite or NaN cannot be rounded).  Whenever it
    returns, the counts sum to max(0, N-4): the order of the notes affects
    only which patterns appear. *)
Theorem pattern_count_any_order (k : scalar_kind)
  (note_events : list note_event) (q : float) :
  (forall h,
      find_rhythm_patterns k note_events q = Ok h ->
      sum_counts h = four_grams (length note_events))
  /\ ((exists h, find_rhythm_patterns k note_events q = Ok h)
      <-> (exists iois, quantized_iois k note_events q = Ok iois))
  /\ (forall e,
        find_rhythm_patterns k note_events q = Err e ->
        e = ZeroDivisionError \/ e = OverflowError \/ e = ValueError).
Proof.
  split; [|split].
  - intros h H.
    destruct (find_rhythm_patterns_ok _ _ _ _ H) as [iois [Hi ->]].
    pose proof (quantized_iois_length_f64 _ _ _ _ Hi) as Hlen.
    now destruct (histogram_size note_events iois Hlen) as [_ [H2 _]].
  - rewrite find_rhythm_patterns_spec. split.
    + intros [h H].
      destruct (quantized_iois k note_events q) as [iois|e];
        [now exists iois | discriminate].
    + intros [iois Hi]. rewrite Hi. eexists. reflexivity.
  - rewrite find_rhythm_patterns_spec. intros e H.
    destruct (quantized_iois k note_events q) as [iois|e'] eqn:E;
      cbn [bind] in H; [discriminate|].
    inversion H; subst.
    destruct note_events as [|first rest]; [discriminate|].
    now apply (iois_from_errors k q rest first).
Qed.

Lemma pattern_count_any_order_witness :
  sum_counts
    [([-0.75; 1.75; -2; 0.75], 1%Z); ([1.75; -2; 0.75; -0.25], 1%Z);
     ([-2; 0.75; -0.25; 4.5], 1%Z)] = four_grams 7.
Proof.
  apply (proj1 (pattern_count_any_order NpFloat64
                  (notes_at [1; 0.25; 2; 0; 0.75; 0.5; 5]) (- 0.25))).
  vm_compute. reflexivity.
Defined.

(** ** Pattern Finder: rounding of a tie *)

Lemma py_round_exact (x : float) (v : Q) :
  exact x = Some v -> py_round x = Ok (round_half_even v).
Proof.
  unfold py_round, exact. destruct (Prim2SF x); try discriminate;
    intros H; inversion H; reflexivity.
Qed.

Lemma float_of_int_ok (z : Z) (f : float) :
  float_of_int z = Ok f -> f = of_Z z.
Proof.
  unfold float_of_int. destruct (is_infinity (of_Z z)); [discriminate|].
  intros H. now inversion H.
Qed.

Lemma quantized_ioi_tie (k : scalar_kind) (a b : note_event) (q x y : float)
  (v : Q) (n : Z) :
  py_div k (start b - start a) q = Ok x ->
  exact x = Some v ->
  (v == inject_Z n + Qhalf)%Q ->
  quantized_ioi k a b q = Ok y ->
  y = of_Z (if Z.even n then n else (n + 1)%Z) * q.
Proof.
  intros Hdiv Hex Hv. unfold quantized_ioi. rewrite Hdiv. cbn [bind].
  rewrite (py_round_exact _ _ Hex). cbn [bind].
  unfold round_half_even. rewrite (py_round_tie _ _ Hv).
  destruct (float_of_int _) as [f|e] eqn:Ef; cbn [bind]; [|discriminate].
  apply float_of_int_ok in Ef. intros H. inversion H. now subst.
Qed.

(** C8. [find_rhythm_patterns] quantizes each IOI with round-half-to-even:
    whenever the quotient (notes[i+1].start - notes[i].start) /
    quantization that the code computes is exactly halfway between the
    integers n and n+1, the IOI recorded for the two notes is the even one
    of n and n+1 times the quantization.  (A quotient that is halfway only
    before the division rounds is not a tie for the code.) *)
Theorem quantize_half_even (k : scalar_kind)
  (note_events : list note_event) (q : float) (h : histogram) (i : nat)
  (a b : note_event) (x : float) (v : Q) (n : Z) :
  find_rhythm_patterns k note_events q = Ok h ->
  nth_error note_events i = Some a ->
  nth_error note_events (S i) = Some b ->
  py_div k (start b - start a) q = Ok x ->
  exact x = Some v ->
  (v == inject_Z n + Qhalf)%Q ->
  exists iois,
    quantized_iois k note_events q = Ok iois
    /\ h = histogram_of (windows 4 iois)
    /\ nth_error iois i
       = Some (of_Z (if Z.even n then n else (n + 1)%Z) * q).
Proof.
  intros H Ha Hb Hdiv Hex Hv.
  destruct (find_rhythm_patterns_ok _ _ _ _ H) as [iois [Hi ->]].
  exists iois. split; [exact Hi|]. split; [reflexivity|].
  destruct (quantized_iois_nth _ _ _ _ _ _ _ Hi Ha Hb) as [y [Hy Hn]].
  rewrite Hn. f_equal. now apply (quantized_ioi_tie k a b q x y v n).
Qed.

(** With quantization 0.25, an IOI of 0.375 (1.5 units) is recorded as 0.5
    and an IOI of 0.125 (0.5 units) as 0.0. *)
Lemma quantize_half_even_witness :
  exists iois,
    quantized_iois PyFloat (notes_at [0; 0.375; 0.5]) 0.25 = Ok iois
    /\ nth_error iois 0 = Some 0.5
    /\ nth_error iois 1 = Some 0.
Proof.
  destruct (quantize_half_even PyFloat (notes_at [0; 0.375; 0.5]) 0.25 []
              0 (note 0 1 100) (note 0.375 1.375 100) 1.5
              (inject_Z 6755399441055744 * Qpower 2 (-52))%Q 1
              eq_refl eq_refl eq_refl eq_refl eq_refl eq_refl)
    as [iois [H1 [_ H2]]].
  destruct (quantize_half_even PyFloat (notes_at [0; 0.375; 0.5]) 0.25 []
              1 (note 0.375 1.375 100) (note 0.5 1.5 100) 0.5
              (inject_Z 4503599627370496 * Qpower 2 (-53))%Q 0
              eq_refl eq_refl eq_refl eq_refl eq_refl eq_refl)
    as [iois' [H1' [_ H2']]].
  rewrite H1 in H1'. inversion H1'; subst iois'.
  exists iois. repeat split; assumption.
Defined.

(** ** Loops that collect one record per item *)

Lemma for_loop_each {A B : Type} (f : A -> result B) (l : list A) :
  forall (acc recs : list B),
    for_loop (fun acc a => r <- f a ;; Ok (acc ++ [r])) l acc = Ok recs
    <-> exists rs,
          Forall2 (fun a r => f a = Ok r) l rs /\ recs = acc ++ rs.
Proof.
  induction l as [|a l IH]; intros acc recs; cbn [for_loop].
  - split.
    + intros H. inversion H; subst. exists []. split; [constructor|].
      now rewrite app_nil_r.
    + intros [rs [H ->]]. inversion H; subst. now rewrite app_nil_r.
  - destruct (f a) as [r|e] eqn:E; cbn [bind].
    + rewrite IH. split.
      * intros [rs [H ->]]. exists (r :: rs). split; [now constructor|].
        now rewrite <- app_assoc.
      * intros [rs [H ->]]. inversion H as [|? r' ? rs' Hr Hrs]; subst.
        rewrite E in Hr. inversion Hr; subst r'.
        exists rs'. split; [exact Hrs|]. now rewrite <- app_assoc.
    + split; [discriminate|].
      intros [rs [H _]]. inversion H as [|? r' ? rs' Hr Hrs]; subst.
      rewrite E in Hr. discriminate.
Qed.

(** ** Density Profiler *)

Lemma analyze_note_density_spec (k : scalar_kind) (n : note_event)
  (rest : list note_event) (w : float) :
  analyze_note_density k (n :: rest) w
  = (max_time <- py_max (map end_ (n :: rest)) ;;
     time_points <- np_arange k 0 max_time w ;;
     Ok (time_points, map (notes_in_window (n :: rest)) time_points)).
Proof.
  unfold analyze_note_density.
  destruct (py_max (map end_ (n :: rest))) as [m|e]; cbn [bind];
    [|reflexivity].
  destruct (np_arange k 0 m w) as [ts|e]; cbn [bind]; [|reflexivity].
  now rewrite (for_loop_collect (notes_in_window (n :: rest))).
Qed.




(** ** Syncopation Scorer *)

Lemma syncopation_step_spec (k : scalar_kind) (beats_per_bar : float)
  (acc : list syncopation_record) (n : note_event) :
  syncopation_step k beats_per_bar acc n
  = (o <- syncopation_of k beats_per_bar n ;;
     Ok (acc ++ emitted [o])).
Proof.
  unfold syncopation_step, syncopation_of, emitted.
  destruct (py_mod k (start n) beats_per_bar) as [p|e]; cbn [bind];
    [|reflexivity].
  destruct (py_mod k p 1) as [f|e] eqn:E; cbn [bind]; [|reflexivity].
  destruct (float_of_int (velocity n)) as [v|e]; cbn [bind];
    [|reflexivity].
  destruct (negb (f <? 0.1) && (0.5 <? v / 127)); cbn [bind flat_map app].
  - reflexivity.
  - now rewrite app_nil_r.
Qed.

Lemma analyze_syncopation_outs (k : scalar_kind) (beats_per_bar : float)
  (l : list note_event) :
  forall acc recs,
    for_loop (syncopation_step k beats_per_bar) l acc = Ok recs ->
    exists outs,
      Forall2 (fun n o => syncopation_of k beats_per_bar n = Ok o) l outs
      /\ recs = acc ++ emitted outs.
Proof.
  induction l as [|n l IH]; intros acc recs; cbn [for_loop].
  - intros H. inversion H; subst. exists []. split; [constructor|].
    cbn. now rewrite app_nil_r.
  - rewrite syncopation_step_spec.
    destruct (syncopation_of k beats_per_bar n) as [o|e] eqn:E;
      cbn [bind]; [|discriminate].
    intros H. destruct (IH _ _ H) as [outs [Hall ->]].
    exists (o :: outs). split; [now constructor|].
    unfold emitted. cbn [flat_map]. now rewrite app_nil_r, <- app_assoc.
Qed.

Lemma syncopation_of_inv (k : scalar_kind) (beats_per_bar : float)
  (n : note_event) (o : option syncopation_record) :
  syncopation_of k beats_per_bar n = Ok o ->
  exists p f v,
    py_mod k (start n) beats_per_bar = Ok p
    /\ py_mod k p 1 = Ok f
    /\ float_of_int (velocity n) = Ok v
    /\ o = (if negb (f <? 0.1) && (0.5 <? v / 127)
            then Some (mk_sync (start n) (v / 127 * (1 - f)))
            else None).
Proof.
  unfold syncopation_of.
  destruct (py_mod k (start n) beats_per_bar) as [p|e] eqn:Ep; cbn [bind];
    [|discriminate].
  destruct (py_mod k p 1) as [f|e] eqn:Ef; cbn [bind]; [|discriminate].
  destruct (float_of_int (velocity n)) as [v|e] eqn:Ev; cbn [bind];
    [|discriminate].
  intros H. exists p, f, v.
  split; [reflexivity|]. split; [exact Ef|]. split; [reflexivity|].
  destruct (negb (f <? 0.1) && (0.5 <? v / 127)); now inversion H.
Qed.



(** The velocity threshold, checked on every velocity of a NoteEvent. *)
Lemma velocity_table :
  forallb (fun v =>
             match float_of_int v with
             | Ok f => Bool.eqb (0.5 <? f / 127) (64 <=? v)%Z
             | Err _ => false
             end)
          (map Z.of_nat (seq 0 128)) = true.
Proof. vm_compute. reflexivity. Qed.

Lemma velocity_threshold (v : Z) :
  (0 <= v <= 127)%Z ->
  exists f, float_of_int v = Ok f /\ (0.5 <? f / 127) = (64 <=? v)%Z.
Proof.
  intros Hv. pose proof velocity_table as H.
  rewrite forallb_forall in H. specialize (H v).
  assert (Hin : In v (map Z.of_nat (seq 0 128))).
  { apply in_map_iff. exists (Z.to_nat v). split; [lia|].
    apply in_seq. lia. }
  specialize (H Hin).
  destruct (float_of_int v) as [f|e]; [|discriminate].
  exists f. split; [reflexivity|]. now apply eqb_prop.
Qed.

(** X11. On notes with velocities in 0..127, whenever
    [analyze_syncopation] returns, it has emitted exactly the notes with
    velocity at least 64 whose position past the beat, as the code
    computes it, is not below 0.1, in input order; a note with velocity 63
    or less is never emitted. *)
Theorem syncopation_velocity_threshold (k : scalar_kind)
  (note_events : list note_event) (beats_per_bar : float)
  (recs : list syncopation_record) :
  (forall n, In n note_events -> (0 <= velocity n <= 127)%Z) ->
  analyze_syncopation k note_events beats_per_bar = Ok recs ->
  (exists outs,
      Forall2 (fun n o =>
                 exists f v,
                   fractional k beats_per_bar n = Ok f
                   /\ float_of_int (velocity n) = Ok v
                   /\ o = (if (64 <=? velocity n)%Z && negb (f <? 0.1)
                           then Some (mk_sync (start n)
                                              (v / 127 * (1 - f)))
                           else None))
              note_events outs
      /\ recs = emitted outs)
  /\ (length recs <= length note_events)%nat
  /\ ((forall n, In n note_events -> (velocity n <= 63)%Z) -> recs = []).
Proof.
  intros Hv H. unfold analyze_syncopation in H.
  apply analyze_syncopation_outs in H. destruct H as [outs [Hall ->]].
  cbn [app].
  assert (Hall' :
    Forall2 (fun n o =>
               exists f v,
                 fractional k beats_per_bar n = Ok f
                 /\ float_of_int (velocity n) = Ok v
                 /\ o = (if (64 <=? velocity n)%Z && negb (f <? 0.1)
                         then Some (mk_sync (start n) (v / 127 * (1 - f)))
                         else None))
            note_events outs).
  { clear -Hall Hv. induction Hall as [|n o l outs Hn _ IH]; constructor.
    - apply syncopation_of_inv in Hn.
      destruct Hn as [p [f [v [Hp [Hf [Hvf ->]]]]]].
      exists f, v. split; [|split; [exact Hvf|]].
      + unfold fractional. now rewrite Hp.
      + destruct (velocity_threshold (velocity n)) as [v' [Hv' Ht]];
          [apply Hv; now left|].
        rewrite Hvf in Hv'. inversion Hv'; subst v'. rewrite Ht.
        now rewrite andb_comm.
    - apply IH. intros a Ha. apply Hv. now right. }
  split; [exists outs; split; [exact Hall' | reflexivity]|].
  split.
  - rewrite (Forall2_length Hall'). clear.
    unfold emitted.
    induction outs as [|[r|] outs IH]; cbn [flat_map app length] in *; lia.
  - intros Hlow. clear -Hall' Hlow.
    induction Hall' as [|n o l outs Hn _ IH]; [reflexivity|].
    destruct Hn as [f [v [_ [_ ->]]]].
    assert (E : (64 <=? velocity n)%Z = false).
    { apply Z.leb_gt. assert (velocity n <= 63)%Z by (apply Hlow; now left).
      lia. }
    rewrite E. cbn [andb emitted flat_map app].
    apply IH. intros a Ha. apply Hlow. now right.
Qed.

Lemma syncopation_velocity_threshold_witness :
  (length [mk_sync 0.25 (64 / 127 * (1 - 0.25))] <= 3)%nat.
Proof.
  apply (syncopation_velocity_threshold PyFloat
           [note 0.25 1 64; note 0.25 1 63; note 1 2 127] 4
           [mk_sync 0.25 (64 / 127 * (1 - 0.25))]).
  - intros n [<- | [<- | [<- | []]]]; cbn; lia.
  - vm_compute. reflexivity.
Defined.

(** ** Division by a zero *)

Lemma Prim2SF_zero : Prim2SF 0 = S754_zero false.
Proof. reflexivity. Qed.

Lemma eqb_zero (x : float) :
  (x =? 0) = true -> exists s, Prim2SF x = S754_zero s.
Proof.
  rewrite eqb_spec, Prim2SF_zero. unfold SFeqb, SFcompare.
  destruct (Prim2SF x) as [s|s| |s m e]; try discriminate.
  - intros _. now exists s.
  - destruct s; discriminate.
  - destruct s; discriminate.
Qed.

Lemma div_by_zero (a b : float) :
  (b =? 0) = true ->
  Prim2SF (a / b) = S754_nan \/ exists s, Prim2SF (a / b) = S754_infinity s.
Proof.
  intros Hb. destruct (eqb_zero b Hb) as [s Hs].
  rewrite div_spec, Hs. unfold SF64div, SFdiv.
  destruct (Prim2SF a) as [sa|sa| |sa m e].
  - now left.
  - right. eexists. reflexivity.
  - now left.
  - right. eexists. reflexivity.
Qed.

Lemma py_round_div_by_zero (a b : float) :
  (b =? 0) = true -> failed (py_round (a / b)).
Proof.
  intros Hb. unfold py_round.
  destruct (div_by_zero a b Hb) as [H|[s H]]; rewrite H; eexists;
    reflexivity.
Qed.

Lemma not_zero_of_class (x : float) :
  Prim2SF x = S754_nan \/ (exists s, Prim2SF x = S754_infinity s) ->
  (x =? 0) = false.
Proof.
  rewrite eqb_spec, Prim2SF_zero. unfold SFeqb, SFcompare.
  intros [H|[s H]]; rewrite H; [reflexivity | destruct s; reflexivity].
Qed.

Lemma arange_length_zero_step (k : scalar_kind) (lo hi step : float) :
  (step =? 0) = true -> failed (arange_length k lo hi step).
Proof.
  intros Hs. unfold arange_length, py_div. destruct k.
  - rewrite Hs. cbn [bind]. eexists. reflexivity.
  - cbn [bind].
    pose proof (div_by_zero (hi - lo) step Hs) as Hc.
    rewrite (not_zero_of_class _ Hc). cbn [andb].
    destruct Hc as [H|[s H]]; rewrite H; eexists; reflexivity.
Qed.

(** ** Groove Analyzer and degenerate parameters *)

Lemma groove_step_spec (k : scalar_kind) (q : float)
  (acc : list groove_record) (n : note_event) :
  groove_step k q acc n = (r <- groove_of k q n ;; Ok (acc ++ [r])).
Proof.
  unfold groove_step, groove_of.
  destruct (py_div k (start n) q) as [x|e]; cbn [bind]; [|reflexivity].
  destruct (py_round x) as [z|e]; cbn [bind]; [|reflexivity].
  destruct (float_of_int z) as [f|e]; reflexivity.
Qed.

Lemma analyze_groove_each (k : scalar_kind) (note_events : list note_event)
  (q : float) (recs : list groove_record) :
  analyze_groove k note_events q = Ok recs
  <-> Forall2 (fun n r => groove_of k q n = Ok r) note_events recs.
Proof.
  unfold analyze_groove.
  rewrite (for_loop_ext _ (fun acc n => r <- groove_of k q n ;;
                                        Ok (acc ++ [r])))
    by (intros st n _; apply groove_step_spec).
  rewrite for_loop_each. cbn [app]. split.
  - intros [rs [H ->]]. exact H.
  - intros H. now exists recs.
Qed.

Lemma groove_of_zero (k : scalar_kind) (q : float) (n : note_event) :
  (q =? 0) = true -> failed (groove_of k q n).
Proof.
  intros Hq. unfold groove_of, py_div. destruct k.
  - rewrite Hq. eexists. reflexivity.
  - cbn [bind]. destruct (py_round_div_by_zero (start n) q Hq) as [e He].
    rewrite He. eexists. reflexivity.
Qed.

Lemma quantized_ioi_zero (k : scalar_kind) (q : float) (a b : note_event) :
  (q =? 0) = true -> failed (quantized_ioi k a b q).
Proof.
  intros Hq. unfold quantized_ioi, py_div. destruct k.
  - rewrite Hq. eexists. reflexivity.
  - cbn [bind].
    destruct (py_round_div_by_zero (start b - start a) q Hq) as [e He].
    rewrite He. eexists. reflexivity.
Qed.

(** The Groove Analyzer accepts a negative quantization: a note at 0.26 on
    a grid of -0.125 yields a record, its deviation as on a grid of
    0.125. *)
Lemma negative_quantization_accepted :
  (- 0.125 <=? 0) = true
  /\ (forall k,
        analyze_groove k [note 0.26 1 100] (- 0.125)
        = Ok [mk_groove 0.26 0.010000000000000009])
  /\ ~ failed (analyze_groove PyFloat [note 0.26 1 100] (- 0.125)).
Proof.
  split; [reflexivity|]. split.
  - intros [|]; vm_compute; reflexivity.
  - intros [e H]. vm_compute in H. discriminate H.
Qed.

(** C6, amended. No check of the window or the quantization exists, so no
    call fails with an InvalidParameter condition.  With a window or a
    quantization equal to 0 the Density Profiler and the Groove Analyzer
    fail on every non-empty note list and the Pattern Finder on every list
    of at least 2 notes, with the error of the arithmetic
    (ZeroDivisionError when the times are Python floats) rather than
    hanging.  A negative value is not rejected: whatever the sign, the
    Groove Analyzer returns exactly when the rounded quotient of every
    note can be computed, and then gives one record per note. *)
Theorem degenerate_parameters :
  (forall (k : scalar_kind) (note_events : list note_event) (x : float),
      (x =? 0) = true ->
      (note_events <> [] ->
       failed (analyze_note_density k note_events x)
       /\ failed (analyze_groove k note_events x))
      /\ ((2 <= length note_events)%nat ->
          failed (find_rhythm_patterns k note_events x))
      /\ (k = PyFloat ->
          (note_events <> [] ->
           analyze_note_density k note_events x = Err ZeroDivisionError
           /\ analyze_groove k note_events x = Err ZeroDivisionError)
          /\ ((2 <= length note_events)%nat ->
              find_rhythm_patterns k note_events x
              = Err ZeroDivisionError)))
  /\ (forall (k : scalar_kind) (note_events : list note_event) (q : float),
        ((exists recs, analyze_groove k note_events q = Ok recs)
         <-> Forall (fun n => exists r, groove_of k q n = Ok r) note_events)
        /\ (forall recs,
              analyze_groove k note_events q = Ok recs ->
              Forall2 (fun n r => groove_of k q n = Ok r) note_events recs)).
Proof.
  split.
  - intros k note_events x Hx. split; [|split].
    + intros Hne. destruct note_events as [|n rest]; [contradiction|].
      split.
      * rewrite analyze_note_density_spec.
        destruct (py_max (map end_ (n :: rest))) as [m|e] eqn:Em;
          [|discriminate].
        cbn [bind]. unfold np_arange.
        destruct (arange_length_zero_step k 0 m x Hx) as [e He].
        rewrite He. eexists. reflexivity.
      * unfold analyze_groove. cbn [for_loop].
        rewrite groove_step_spec.
        destruct (groove_of_zero k x n Hx) as [e He]. rewrite He.
        eexists. reflexivity.
    + intros Hlen. destruct note_events as [|a [|b rest]];
        cbn [length] in Hlen; try lia.
      rewrite find_rhythm_patterns_spec. cbn [quantized_iois iois_from].
      destruct (quantized_ioi_zero k x a b Hx) as [e He]. rewrite He.
      eexists. reflexivity.
    + intros ->. split.
      * intros Hne. destruct note_events as [|n rest]; [contradiction|].
        split.
        -- rewrite analyze_note_density_spec.
           destruct (py_max (map end_ (n :: rest))) as [m|e] eqn:Em;
             [|discriminate].
           cbn [bind]. unfold np_arange, arange_length, py_div.
           now rewrite Hx.
        -- unfold analyze_groove, groove_step, py_div. cbn [for_loop].
           now rewrite Hx.
      * intros Hlen. destruct note_events as [|a [|b rest]];
          cbn [length] in Hlen; try lia.
        rewrite find_rhythm_patterns_spec. cbn [quantized_iois iois_from].
        unfold quantized_ioi, py_div. now rewrite Hx.
  - intros k note_events q. split.
    + split.
      * intros [recs H]. apply analyze_groove_each in H.
        clear -H. induction H as [|n r l rs Hn _ IH]; constructor;
          [now exists r | exact IH].
      * intros H.
        assert (Hex : exists recs,
                   Forall2 (fun n r => groove_of k q n = Ok r)
                           note_events recs).
        { clear -H. induction H as [|n l [r Hr] _ [rs IH]].
          - exists []. constructor.
          - exists (r :: rs). now constructor. }
        destruct Hex as [recs Hrecs]. exists recs.
        now apply analyze_groove_each.
    + intros recs H. now apply analyze_groove_each.
Qed.

Lemma degenerate_parameters_witness :
  failed (analyze_groove NpFloat64 (notes_at [0.26; 0.5]) 0)
  /\ find_rhythm_patterns PyFloat (notes_at [0.26; 0.5]) 0
     = Err ZeroDivisionError.
Proof.
  destruct (proj1 degenerate_parameters NpFloat64 (notes_at [0.26; 0.5]) 0
              eq_refl) as [H1 _].
  destruct (proj1 degenerate_parameters PyFloat (notes_at [0.26; 0.5]) 0
              eq_refl) as [_ [_ H2]].
  split.
  - apply H1. discriminate.
  - apply (H2 eq_refl). cbn. lia.
Defined.

End Binary64Facts.

(** * Syncopation Scorer: the emission rule and the range of the scores *)

#[local] Set Warnings "-inexact-float".


